(** * Product-Scanner: the label-to-record pipeline

    A shallow embedding of [src/lib/productParser.ts] (the shape
    normaliser [flattenNestedData], the schema [ProductSchema], and the two
    entry points [parseProductText] and [parseProductImage]) and of the
    handler of the scan endpoint [src/app/api/scan/route.ts], followed
    by the properties of the specification that concern them.

    Conventions of the embedding.
    - A JavaScript value is a [value].  The values that [JSON.parse]
      produces never contain [VUndef], and all their objects have the
      built-in prototype ([proto = None]).
    - A [string] is the sequence of UTF-16 code units of a JavaScript
      string, one character per unit; the strings of the embedding are
      the ones whose code units are below 256.
    - A number is carried by its canonical decimal rendering (the result
      of [Number::toString]); the rendering identifies the number up to
      the sign of zero, which the program never observes.
    - An abrupt completion ([throw]) is the [Throw] constructor of
      [completion]; the calls to the model gateway are recorded in a log
      that is threaded through the computation.  The log has one entry
      for each call of [chat.completions.create]: the client is built
      without [maxRetries], so within one call it may send the request
      again after a failure, and the log does not count that. *)

From stdpp Require Import base option list strings pretty gmap fin_maps.

Local Open Scope string_scope.
Set Warnings "-register-all".

(** ** JavaScript values *)

Module JS.

Inductive value : Type :=
  | VUndef
  | VNull
  | VBool (b : bool)
  | VNum (repr : string)
  | VStr (s : string)
  | VArr (elems : list value)
  | VObj (proto : option value) (props : gmap string value).

(** An object literal or an object made by [JSON.parse]: own properties
    [m], prototype [Object.prototype]. *)
Abbreviation JObj m := (VObj None m).

(** What a thrown exception carries, as far as the program looks at it:
    [error.message], [error.status], [error.code]. *)
Record JsError : Type := mkError
  { err_message : string;
    err_status : option Z;
    err_code : option string }.

Definition TypeError (msg : string) : JsError := mkError msg None None.
Definition SyntaxError (msg : string) : JsError := mkError msg None None.
Definition Error (msg : string) : JsError := mkError msg None None.

Inductive completion (A : Type) : Type :=
  | Normal (a : A)
  | Throw (e : JsError).
Arguments Normal {A} a.
Arguments Throw {A} e.

(** Sequencing: a [Throw] skips the rest.  With these instances
    [x ← c; k] is stdpp's notation for it. *)
#[global] Instance completion_ret : MRet completion := λ A a, Normal a.
#[global] Instance completion_bind : MBind completion := λ A B k c,
  match c with
  | Normal a => k a
  | Throw e => Throw e
  end.

(** [ToBoolean]: the tests [if (x)], [!x], [a || b], [a && b]. *)
Definition truthy (v : value) : bool :=
  match v with
  | VUndef | VNull => false
  | VBool b => b
  | VNum r => negb (bool_decide (r = "0" ∨ r = "NaN"))
  | VStr s => negb (bool_decide (s = ""))
  | VArr _ | VObj _ _ => true
  end.

(** [x ?? undefined] *)
Definition coalesceUndefined (v : value) : value :=
  match v with
  | VNull | VUndef => VUndef
  | _ => v
  end.

(** The `k`-th entry of an indexed collection, `k` being a property name:
    found when `k` is the canonical decimal numeral of a position. *)
Fixpoint lookupIndexFrom {A} (i : nat) (l : list A) (k : string) : option A :=
  match l with
  | [] => None
  | x :: rest => if bool_decide (pretty i = k) then Some x
                 else lookupIndexFrom (S i) rest k
  end.

Definition lookupIndex {A} (l : list A) (k : string) : option A :=
  lookupIndexFrom 0 l k.

Fixpoint codeUnits (s : string) : list string :=
  match s with
  | EmptyString => []
  | String a rest => String a EmptyString :: codeUnits rest
  end.

(** The own property `k` of an array or of a string. *)
Definition ownOfArray (l : list value) (k : string) : option value :=
  if bool_decide (k = "length") then Some (VNum (pretty (length l)))
  else lookupIndex l k.

Definition ownOfString (s : string) (k : string) : option value :=
  if bool_decide (k = "length") then Some (VNum (pretty (String.length s)))
  else VStr <$> lookupIndex (codeUnits s) k.

(** Where a property lookup ends when it walks the prototype chain. *)
Inductive lookupResult : Type :=
  | Found (v : value)
  | AtObjectPrototype     (* not found before the built-in prototypes *)
  | AtNull.               (* not found, and the chain ends in [null] *)

(** [lookupChain k v]: the lookup of the name `k` from the object `v`
    along its prototype chain.  The names the program looks up
    (the field names of the record, the group headings, `choices`, `0`,
    `message`, `content`, `__proto__` as an own key) are not properties of
    the built-in prototypes, so reaching a built-in prototype is a miss. *)
Fixpoint lookupChain (k : string) (v : value) : lookupResult :=
  match v with
  | VObj p m =>
      match m !! k with
      | Some x => Found x
      | None => match p with
                | None => AtObjectPrototype
                | Some q => lookupChain k q
                end
      end
  | VArr l => match ownOfArray l k with
              | Some x => Found x
              | None => AtObjectPrototype
              end
  | _ => AtNull
  end.

(** [v.k] and [v[k]].  Reading a property of [undefined] or [null]
    throws; a primitive has the properties of its wrapper. *)
Definition Get (v : value) (k : string) : completion value :=
  match v with
  | VUndef => Throw (TypeError "Cannot read properties of undefined")
  | VNull => Throw (TypeError "Cannot read properties of null")
  | VBool _ | VNum _ => Normal VUndef
  | VStr s => Normal (default VUndef (ownOfString s k))
  | VArr _ | VObj _ _ =>
      Normal (match lookupChain k v with Found x => x | _ => VUndef end)
  end.

(** [v?.k] *)
Definition GetOptional (v : value) (k : string) : completion value :=
  match v with
  | VUndef | VNull => Normal VUndef
  | _ => Get v k
  end.

(** [k in v] for an object `v`. *)
Definition hasProperty (v : value) (k : string) : bool :=
  match lookupChain k v with Found _ => true | _ => false end.

(** [Array.prototype.join]: [undefined] and [null] elements give the
    empty string, every other element is converted by `str`. *)
Definition Array_join (str : value → completion string) (sep : string) :
    list value → completion string :=
  fix go (l : list value) : completion string :=
    match l with
    | [] => Normal ""
    | x :: rest =>
        s ← match x with
            | VUndef | VNull => Normal ""
            | _ => str x
            end;
        match rest with
        | [] => Normal s
        | _ => r ← go rest; Normal (s ++ sep ++ r)
        end
    end.

(** Does [OrdinaryToPrimitive] find the built-in [toString]?  An own or
    inherited data property named `toString` hides it (it is not
    callable), a chain that ends in [null] has none. *)
Fixpoint hasBuiltinToString (v : value) : bool :=
  match v with
  | VObj p m =>
      match m !! "toString" with
      | Some _ => false
      | None => match p with
                | None => true
                | Some q => hasBuiltinToString q
                end
      end
  | _ => false
  end.

(** [String(v)].  For an object: [toString] is tried first; when it is
    hidden by a data property, [valueOf] is tried, and neither a hidden
    [valueOf] nor the built-in one (which returns the object itself)
    gives a primitive, so the conversion throws. *)
Fixpoint ToString (v : value) : completion string :=
  match v with
  | VUndef => Normal "undefined"
  | VNull => Normal "null"
  | VBool true => Normal "true"
  | VBool false => Normal "false"
  | VNum r => Normal r
  | VStr s => Normal s
  | VArr l => Array_join ToString "," l
  | VObj _ _ =>
      if hasBuiltinToString v then Normal "[object Object]"
      else Throw (TypeError "Cannot convert object to primitive value")
  end.

(** The own enumerable string-keyed properties of [ToObject(v)], as
    [Object.assign] reads them from a source. *)
Definition indexed (l : list value) : gmap string value :=
  list_to_map (imap (λ i x, (pretty i, x)) l).

Definition ownEnumerable (v : value) : gmap string value :=
  match v with
  | VObj _ m => m
  | VArr l => indexed l
  | VStr s => indexed (VStr <$> codeUnits s)
  | _ => ∅
  end.

(** [o[k] = v] on an ordinary extensible object `o` whose own properties
    are writable data properties.  Every name becomes an own property,
    except `__proto__` when the lookup reaches the accessor of
    [Object.prototype]: its setter replaces the prototype when `v` is an
    object or [null] and ignores every other `v`. *)
Definition SetProperty (o : value) (k : string) (v : value) : value :=
  match o with
  | VObj p m =>
      if bool_decide (k = "__proto__") then
        match lookupChain k o with
        | AtObjectPrototype =>
            match v with
            | VNull | VArr _ | VObj _ _ => VObj (Some v) m
            | _ => o
            end
        | Found _ | AtNull => VObj p (<[k:=v]> m)
        end
      else VObj p (<[k:=v]> m)
  | _ => o
  end.

(** [Object.assign(target, source)] for an object `target`: a
    [SetProperty] for every own enumerable property of the source.  The
    writes of names other than `__proto__` neither read nor change the
    prototype chain, so their order is immaterial and they are done as one
    union in which the source wins. *)
Definition Object_assign (target source : value) : value :=
  match target with
  | VObj p m =>
      let src := ownEnumerable source in
      let merged := VObj p (delete "__proto__" src ∪ m) in
      match src !! "__proto__" with
      | Some v => SetProperty merged "__proto__" v
      | None => merged
      end
  | _ => target
  end.

End JS.

(** ** The schema library

    [ProductSchema] is written with the combinators of the zod library.
    They are embedded by their documented behaviour: a schema maps an
    input to its output, or reports issues ([None]); [safeParse] never
    throws. *)

Module Zod.
Import JS.

Definition Schema : Type := value → option value.

Definition isUndefined (v : value) : bool :=
  match v with VUndef => true | _ => false end.

(** [z.string()] *)
Definition z_string : Schema := λ v,
  match v with
  | VStr _ => Some v
  | _ => None
  end.

(** [z.array(elem)] *)
Definition z_array (elem : Schema) : Schema := λ v,
  match v with
  | VArr l => VArr <$> mapM elem l
  | _ => None
  end.

(** [z.record(z.string(), val)]: an object (not an array) all of whose
    values pass `val`.  The library steps over an own key `__proto__`:
    its value is not read, and the key is not in the output. *)
Definition z_record (val : Schema) : Schema := λ v,
  match v with
  | VObj _ m =>
      let entries := delete "__proto__" m in
      if bool_decide (map_Forall (λ _ x, is_Some (val x)) entries)
      then Some (JObj (omap val entries))
      else None
  | _ => None
  end.

(** One key of [z.object]: the schema of the key runs on [input[key]];
    the key is set in the output when the result is not [undefined] or
    the key is in the input. *)
Definition objectField (input : value) (entry : string * Schema) :
    option (list (string * value)) :=
  let '(key, schema) := entry in
  out ← schema (match lookupChain key input with Found x => x | _ => VUndef end);
  Some (if isUndefined out && negb (hasProperty input key)
        then [] else [(key, out)]).

(** [z.object(shape)]: the input must be an object (not [null], not an
    array); every key of the shape is parsed, one issue fails the whole
    parse; keys that are not in the shape are stripped. *)
Definition z_object (shape : list (string * Schema)) : Schema := λ v,
  match v with
  | VObj _ _ =>
      fields ← mapM (objectField v) shape;
      Some (JObj (list_to_map (concat fields)))
  | _ => None
  end.

(** [schema.nullish()] *)
Definition nullish (schema : Schema) : Schema := λ v,
  match v with
  | VUndef | VNull => Some v
  | _ => schema v
  end.

(** [schema.transform(f)] *)
Definition transform (schema : Schema) (f : value → value) : Schema := λ v,
  f <$> schema v.

End Zod.

(** ** [src/lib/productParser.ts] *)

Module ProductParser.
Import JS Zod.

(** The blocks of [flattenNestedData], one definition per block; each
    takes the object read and the value of `flattened` so far. *)

(** Lines 14-22, for a heading of the two merged groups:
    [if (data[heading]) Object.assign(flattened, data[heading])]. *)
Definition mergeGroup (heading : string) (data flattened : value) :
    completion value :=
  group ← Get data heading;
  mret (if truthy group then Object_assign flattened group else flattened).

(** Lines 24-33. *)
Definition liftIngredientsNutrition (data flattened : value) : completion value :=
  ingredientsNutrition ← Get data "Ingredients & Nutrition";
  if truthy ingredientsNutrition then
    ingredients ← Get ingredientsNutrition "ingredients";
    let flattened :=
      if truthy ingredients
      then SetProperty flattened "ingredients" ingredients
      else flattened in
    nutritionalInfo ← Get ingredientsNutrition "nutritionalInfo";
    mret (if truthy nutritionalInfo
          then SetProperty flattened "nutritionalInfo" nutritionalInfo
          else flattened)
  else mret flattened.

(** Lines 43-45:
    [Array.isArray(x) ? x.join(', ') : String(x)]. *)
Definition joinOrString (x : value) : completion string :=
  match x with
  | VArr l => Array_join ToString ", " l
  | _ => ToString x
  end.

(** Lines 35-50. *)
Definition liftManufacturing (data flattened : value) : completion value :=
  manufacturing ← Get data "Manufacturing & Regulatory";
  if truthy manufacturing then
    manufacturingAddresses ← Get manufacturing "manufacturingAddresses";
    let flattened :=
      if truthy manufacturingAddresses
      then SetProperty flattened "manufacturingAddresses" manufacturingAddresses
      else flattened in
    fssaiLicense ← Get manufacturing "fssaiLicense";
    flattened ←
      (if truthy fssaiLicense then
         text ← joinOrString fssaiLicense;
         mret (SetProperty flattened "fssaiLicense" (VStr text))
       else mret flattened);
    vegetarian ← Get manufacturing "vegetarian";
    if truthy vegetarian then
      text ← ToString vegetarian;
      mret (SetProperty flattened "vegetarian" (VStr text))
    else mret flattened
  else mret flattened.

(** Lines 52-62, for the two groups with one lifted key:
    [const group = data[heading];
     if (group && group[key]) flattened[key] = group[key]]. *)
Definition liftSingle (heading key : string) (data flattened : value) :
    completion value :=
  group ← Get data heading;
  if truthy group then
    inner ← Get group key;
    mret (if truthy inner then SetProperty flattened key inner else flattened)
  else mret flattened.

(** [flattenNestedData], lines 5-65.  Once [data.name] has been read,
    `data` is neither [undefined] nor [null], and the other reads of the
    test of line 7 cannot throw: they are done before the test. *)
Definition flattenNestedData (data : value) : completion value :=
  name ← Get data "name";
  company ← Get data "company";
  basic ← Get data "Basic Information";
  dates ← Get data "Dates & Batch";
  if truthy name || truthy company
     || (negb (truthy basic) && negb (truthy dates))
  then mret data
  else
    flattened ← mergeGroup "Basic Information" data (JObj ∅);
    flattened ← mergeGroup "Dates & Batch" data flattened;
    flattened ← liftIngredientsNutrition data flattened;
    flattened ← liftManufacturing data flattened;
    flattened ← liftSingle "Contact Information" "consumerContact" data flattened;
    flattened ← liftSingle "Other Details" "otherDetails" data flattened;
    mret flattened.

(** Lines 69-71. *)
Definition nullishString : Schema :=
  transform (nullish z_string) coalesceUndefined.
Definition nullishArray : Schema :=
  transform (nullish (z_array z_string)) coalesceUndefined.
Definition nullishRecord : Schema :=
  transform (nullish (z_record z_string)) coalesceUndefined.

(** [ProductSchema], lines 73-112. *)
Definition ProductSchema : Schema :=
  z_object
    [ ("name", nullishString);
      ("company", nullishString);
      ("manufacturer", nullishString);
      ("ingredients", nullishArray);
      ("expiryDate", nullishString);
      ("bestBefore", nullishString);
      ("mrp", nullishString);
      ("price", nullishString);
      ("netWeight", nullishString);
      ("batchNumber", nullishString);
      ("manufacturingDate", nullishString);
      ("barcode", nullishString);
      ("nutritionalInfo",
        transform
          (nullish
             (z_object
                [ ("energy", nullishString);
                  ("protein", nullishString);
                  ("totalCarbohydrate", nullishString);
                  ("sugars", nullishString);
                  ("totalFat", nullishString);
                  ("saturatedFat", nullishString);
                  ("transFat", nullishString);
                  ("sodium", nullishString);
                  ("servingSize", nullishString) ]))
          coalesceUndefined);
      ("manufacturingAddresses", nullishArray);
      ("fssaiLicense", nullishString);
      ("consumerContact",
        transform
          (nullish
             (z_object
                [ ("phone", nullishString);
                  ("email", nullishString);
                  ("address", nullishString);
                  ("website", nullishString) ]))
          coalesceUndefined);
      ("vegetarian", nullishString);
      ("trademark", nullishString);
      ("otherDetails", nullishRecord) ].

(** The field names of the canonical record: the keys of
    [ProductSchema]. *)
Definition canonicalFields : list string :=
  [ "name"; "company"; "manufacturer"; "ingredients"; "expiryDate";
    "bestBefore"; "mrp"; "price"; "netWeight"; "batchNumber";
    "manufacturingDate"; "barcode"; "nutritionalInfo";
    "manufacturingAddresses"; "fssaiLicense"; "consumerContact";
    "vegetarian"; "trademark"; "otherDetails" ].

(** *** The requests *)

Definition nl : string := String (Ascii.ascii_of_nat 10) EmptyString.
Definition dq : string := String (Ascii.ascii_of_nat 34) EmptyString.
Definition unlines (lines : list string) : string := String.concat nl lines.

(** The instruction of [parseProductText] (the template literal [prompt]) up to
    the interpolated text, and after it. *)
Definition promptHead : string := unlines
  [ "Extract comprehensive product information from the following text extracted from a product label. ";
    "Return a JSON object with the following fields (use null for missing values):";
    "";
    "**Basic Information:**";
    "- name: Product name";
    "- company: Company or brand name";
    "- manufacturer: Manufacturer name (if different from company)";
    "- trademark: Trademark information";
    "- barcode: Barcode or product code";
    "- netWeight: Net weight/quantity";
    "- mrp: Maximum Retail Price (MRP)";
    "- price: Current price if different from MRP";
    "";
    "**Dates & Batch:**";
    "- expiryDate: Expiry date in YYYY-MM-DD format if available";
    "- bestBefore: Best before information (e.g., " ++ dq ++ "SIX MONTHS FROM MANUFACTURE" ++ dq ++ ")";
    "- manufacturingDate: Manufacturing date in YYYY-MM-DD format if available";
    "- batchNumber: Batch or lot number";
    "";
    "**Ingredients & Nutrition:**";
    "- ingredients: Array of all ingredient names";
    "- nutritionalInfo: Object with nutritional values:";
    "  - energy: Energy value (e.g., " ++ dq ++ "555 kcal" ++ dq ++ ")";
    "  - protein: Protein content";
    "  - totalCarbohydrate: Total carbohydrates";
    "  - sugars: Sugar content";
    "  - totalFat: Total fat content";
    "  - saturatedFat: Saturated fat";
    "  - transFat: Trans fat";
    "  - sodium: Sodium content";
    "  - servingSize: Serving size (e.g., " ++ dq ++ "Per 100g" ++ dq ++ ")";
    "";
    "**Manufacturing & Regulatory:**";
    "- manufacturingAddresses: Array of manufacturing unit addresses";
    "- fssaiLicense: FSSAI license number(s)";
    "- vegetarian: Vegetarian status (" ++ dq ++ "Yes" ++ dq ++ ", " ++ dq ++ "No" ++ dq ++ ", or description)";
    "";
    "**Contact Information:**";
    "- consumerContact: Object with:";
    "  - phone: Consumer helpline/phone number";
    "  - email: Consumer email address";
    "  - address: Consumer service address";
    "  - website: Company website URL";
    "";
    "**Other Details:**";
    "- otherDetails: Object with any other relevant information (key-value pairs)";
    "";
    "Extract ALL available information from the text. Be thorough and include nutritional facts, addresses, contact details, and any regulatory information.";
    "";
    "Text to parse:";
    "" ].


Definition promptTail : string := unlines
  [ "";
    "";
    "Return ONLY valid JSON, no additional text or markdown formatting." ].

(** The instruction of [parseProductImage]. *)
Definition imagePrompt : string := unlines
  [ "Extract comprehensive product information from this product label image. ";
    "Return a JSON object with ALL available information including:";
    "- Basic: name, company, manufacturer, trademark, barcode, netWeight, mrp, price";
    "- Dates: expiryDate, bestBefore, manufacturingDate, batchNumber";
    "- Ingredients: ingredients (array)";
    "- Nutrition: nutritionalInfo object (energy, protein, totalCarbohydrate, sugars, totalFat, saturatedFat, transFat, sodium, servingSize)";
    "- Manufacturing: manufacturingAddresses (array), fssaiLicense, vegetarian";
    "- Contact: consumerContact object (phone, email, address, website)";
    "- Other: otherDetails (object)";
    "";
    "Extract ALL visible information including nutritional facts, addresses, contact details, and regulatory information. Use null for missing values. Return ONLY valid JSON." ].

Inductive UserContent : Type :=
  | UserText (text : string)
  | UserParts (text : string) (image_url : string).

(** The argument of [openai.chat.completions.create]. *)
Record ChatRequest : Type := mkRequest
  { model : string;
    system : string;
    user : UserContent;
    response_format : string;
    temperature : string;
    max_tokens : option nat }.

Definition textRequest (ocrText : string) : ChatRequest :=
  {| model := "openai/gpt-4o-mini";
     system := "You are a product information extraction assistant. Extract structured data from product labels and return valid JSON only.";
     user := UserText (promptHead ++ ocrText ++ promptTail);
     response_format := "json_object";
     temperature := "0.3";
     max_tokens := None |}.

Definition imageRequest (imageBase64 mimeType : string) : ChatRequest :=
  {| model := "openai/gpt-4o-mini";
     system := "You are a product information extraction assistant. Analyze product label images and extract structured data. Return valid JSON only.";
     user := UserParts imagePrompt
               ("data:" ++ mimeType ++ ";base64," ++ imageBase64);
     response_format := "json_object";
     temperature := "0.3";
     max_tokens := Some 1000 |}.

(** *** The two entry points *)

(** [try { body } catch (error) { handler }] *)
Definition tryCatch {A} (body : completion A) (handler : JsError → completion A) :
    completion A :=
  match body with
  | Normal a => Normal a
  | Throw e => handler e
  end.

(** The record of the [catch] blocks, lines 260-280 and 394-414. *)
Definition emptyProduct : value :=
  JObj (list_to_map
    [ ("name", VUndef);
      ("company", VUndef);
      ("manufacturer", VUndef);
      ("ingredients", VUndef);
      ("expiryDate", VUndef);
      ("bestBefore", VUndef);
      ("mrp", VUndef);
      ("price", VUndef);
      ("netWeight", VUndef);
      ("batchNumber", VUndef);
      ("manufacturingDate", VUndef);
      ("barcode", VUndef);
      ("nutritionalInfo", VUndef);
      ("manufacturingAddresses", VUndef);
      ("fssaiLicense", VUndef);
      ("consumerContact", VUndef);
      ("vegetarian", VUndef);
      ("trademark", VUndef);
      ("otherDetails", VUndef) ]).

(** The record returned when validation fails, lines 233-254 and
    369-390: the casts are erased at run time, so each field is the
    property of `flat`, through [?? undefined] for all fields but
    `nutritionalInfo` and `consumerContact`. *)
Definition bestEffortRecord (flat : value) : completion value :=
  fields ← mapM (λ '(key, f), v ← Get flat key; mret (key, f v))
    [ ("name", coalesceUndefined);
      ("company", coalesceUndefined);
      ("manufacturer", coalesceUndefined);
      ("ingredients", coalesceUndefined);
      ("expiryDate", coalesceUndefined);
      ("bestBefore", coalesceUndefined);
      ("mrp", coalesceUndefined);
      ("price", coalesceUndefined);
      ("netWeight", coalesceUndefined);
      ("batchNumber", coalesceUndefined);
      ("manufacturingDate", coalesceUndefined);
      ("barcode", coalesceUndefined);
      ("nutritionalInfo", id);
      ("manufacturingAddresses", coalesceUndefined);
      ("fssaiLicense", coalesceUndefined);
      ("consumerContact", id);
      ("vegetarian", coalesceUndefined);
      ("trademark", coalesceUndefined);
      ("otherDetails", coalesceUndefined) ];
  mret (JObj (list_to_map fields)).

(** Lines 223-255 (and 359-391): strict validation, and the field by
    field record when it fails. *)
Definition validateRecord (flattened : value) : completion value :=
  match ProductSchema flattened with
  | Some data => mret data
  | None => bestEffortRecord flattened
  end.

Section Pipeline.

(** The two services the entry points call: the completion endpoint
    behind the client built from the key, and [JSON.parse] on a string.
    Both either return a value or throw. *)
Context (create : string → ChatRequest → completion value).
Context (JSON_parse : string → completion value).

(** [response.choices[0]?.message?.content] *)
Definition responseContent (response : value) : completion value :=
  choices ← Get response "choices";
  first ← Get choices "0";
  message ← GetOptional first "message";
  GetOptional message "content".

(** The body of the [try] block after the call, lines 208-255; lines
    345-391 of [parseProductImage] are the same statements.
    [JSON.parse] converts its argument to a string first. *)
Definition readProduct (response : value) : completion value :=
  content ← responseContent response;
  if negb (truthy content) then Throw (Error "No response from OpenRouter")
  else
    text ← ToString content;
    parsed ← JSON_parse text;
    flattened ← flattenNestedData parsed;
    validateRecord flattened.

(** [!apiKey] for [apiKey?: string]. *)
Definition keyMissing (apiKey : option string) : bool :=
  match apiKey with
  | None => true
  | Some key => bool_decide (key = "")
  end.

(** [parseProductText], lines 120-282.  The function is [async]: the
    result is how the returned promise settles ([Normal] when it is
    fulfilled, [Throw] when it is rejected) and the log of the calls of
    [create] made so far; the call to the gateway is its only [await].  The client
    object of lines 128-134 only stores the key and the address; the
    logging statements do not change the result and are left out. *)
Definition parseProductText (ocrText : string) (apiKey : option string)
    (log : list ChatRequest) : completion value * list ChatRequest :=
  if keyMissing apiKey
  then (Throw (Error "OpenRouter API key is required"), log)
  else
    let request := textRequest ocrText in
    (tryCatch (response ← create (default "" apiKey) request;
               readProduct response)
              (λ error, mret emptyProduct),
     (log ++ [request])%list).

(** [parseProductImage], lines 288-416. *)
Definition parseProductImage (imageBase64 mimeType : string)
    (apiKey : option string) (log : list ChatRequest) :
    completion value * list ChatRequest :=
  if keyMissing apiKey
  then (Throw (Error "OpenRouter API key is required"), log)
  else
    let request := imageRequest imageBase64 mimeType in
    (tryCatch (response ← create (default "" apiKey) request;
               readProduct response)
              (λ error, mret emptyProduct),
     (log ++ [request])%list).

End Pipeline.

End ProductParser.

(** ** The OCR-text branch of [src/app/api/scan/route.ts] *)

Module ScanRoute.
Import JS ProductParser.

(** [String.prototype.trim] removes white space and line terminators at
    both ends; these are the ones among the code units below 256. *)
Definition isWhiteSpace (a : Ascii.ascii) : bool :=
  bool_decide (Ascii.nat_of_ascii a ∈ [9; 10; 11; 12; 13; 32; 160]).

Fixpoint trimStart (s : string) : string :=
  match s with
  | String a rest => if isWhiteSpace a then trimStart rest else s
  | EmptyString => s
  end.

Definition trim (s : string) : string :=
  String.rev (trimStart (String.rev (trimStart s))).

(** A [File] of the form, as far as the handler looks at it:
    [file.type] and the bytes that [fileToBase64] encodes. *)
Record File : Type := mkFile
  { type : string;
    bytes : string }.

(** What [formData.get] returns for a name that is in the form: a string
    or a [File], whatever the name.  The casts of lines 13-14 are erased
    at run time, so each of the two entries can be of either kind. *)
Inductive FormDataEntryValue : Type :=
  | TextEntry (text : string)
  | FileEntry (file : File).

(** The body of a JSON response of the branch. *)
Record ScanResponse : Type := mkResponse
  { success : bool;
    data : value;
    message : option string;
    code : option string }.

(** [{ name: undefined, company: undefined,
       rawText: ocrText.substring(0, 1000) }] *)
Definition rawData (ocrText : string) : value :=
  JObj (list_to_map
    [ ("name", VUndef);
      ("company", VUndef);
      ("rawText", VStr (String.substring 0 1000 ocrText)) ]).

(** The [catch] block of lines 45-108, as a function of the caught
    error. *)
Definition textFallback (ocrText : string) (apiError : JsError) : ScanResponse :=
  if bool_decide (err_status apiError = Some 404%Z) then
    {| success := true;
       data := rawData ocrText;
       message := Some "Gemini API model not found. The model name may be incorrect. Showing raw OCR text. Please check the model configuration.";
       code := Some "model_not_found" |}
  else if bool_decide (err_status apiError = Some 401%Z)
          || bool_decide (err_status apiError = Some 403%Z) then
    {| success := true;
       data := rawData ocrText;
       message := Some "Gemini API authentication failed. The API key may be invalid or expired. Showing raw OCR text. Please verify your API key at https://makersuite.google.com/app/apikey";
       code := Some "auth_failed" |}
  else if bool_decide (err_status apiError = Some 429%Z)
          || bool_decide (err_code apiError = Some "insufficient_quota")
          || bool_decide (err_code apiError = Some "RESOURCE_EXHAUSTED") then
    {| success := true;
       data := rawData ocrText;
       message := Some "Gemini API quota exceeded. Showing raw OCR text. Please check your billing or try again later.";
       code := Some "quota_exceeded" |}
  else
    {| success := true;
       data := rawData ocrText;
       message := Some "AI parsing failed. Showing raw OCR text.";
       code := Some "parsing_failed" |}.

Section Route.

Context (create : string → ChatRequest → completion value).
Context (JSON_parse : string → completion value).

(** Strategy 1 of [POST], lines 26-109, on what [formData.get('ocrText')]
    returned ([None] for [null]): the response of the branch, or [None]
    when the branch is not taken ([null], or a text that is empty once
    trimmed) and the handler goes on to the image.  A [File] is truthy
    and has no method [trim]: the call of line 27 throws a [TypeError]
    (the message is the one of V8), which the [catch] block of the
    handler receives. *)
Definition POST_ocrText (ocrText : option FormDataEntryValue)
    (geminiApiKey : option string) (log : list ChatRequest) :
    completion (option ScanResponse) * list ChatRequest :=
  match ocrText with
  | Some (TextEntry text) =>
      if negb (bool_decide (text = ""))
         && bool_decide (0 < String.length (trim text)) then
        if keyMissing geminiApiKey then
          (Normal (Some {| success := true;
                           data := rawData text;
                           message := Some "Gemini API key not configured. Add GEMINI_API_KEY for AI parsing.";
                           code := None |}),
           log)
        else
          match parseProductText create JSON_parse text geminiApiKey log with
          | (Normal productData, log') =>
              (Normal (Some {| success := true;
                               data := productData;
                               message := None;
                               code := None |}),
               log')
          | (Throw error, log') =>
              (Normal (Some (textFallback text error)), log')
          end
      else (Normal None, log)
  | Some (FileEntry _) =>
      (Throw (TypeError "ocrText.trim is not a function"), log)
  | None => (Normal None, log)
  end.

End Route.

End ScanRoute.

(** ** The whole handler of [src/app/api/scan/route.ts] *)

Module ScanEndpoint.
Import JS ProductParser ScanRoute.

(** The body of a response: one of the success bodies of the OCR-text
    branch and of the image branch, or
    [{ error, code?, requiresApiKey? }]. *)
Inductive ResponseBody : Type :=
  | ScanBody (response : ScanResponse)
  | ErrorBody (error : string) (code : option string) (requiresApiKey : bool).

(** [NextResponse.json(body, { status })], the status being 200 when
    none is given. *)
Record HttpResponse : Type := mkHttp
  { status : Z;
    body : ResponseBody }.

(** Lines 131-133:
    [Object.values(productData).some(
       (value) => value !== undefined && value !== null && value !== '')]. *)
Definition meaningful (v : value) : bool :=
  match v with
  | VUndef | VNull => false
  | VStr s => negb (bool_decide (s = ""))
  | _ => true
  end.

Definition hasData (productData : value) : bool :=
  existsb meaningful (map_to_list (ownEnumerable productData)).*2.

Definition authFailed (apiError : JsError) : bool :=
  bool_decide (err_status apiError = Some 401%Z)
  || bool_decide (err_status apiError = Some 403%Z).

Definition quotaExceeded (apiError : JsError) : bool :=
  bool_decide (err_status apiError = Some 429%Z)
  || bool_decide (err_code apiError = Some "insufficient_quota")
  || bool_decide (err_code apiError = Some "RESOURCE_EXHAUSTED").

(** The [catch] block of the image branch, lines 138-165: a response,
    or the error thrown again. *)
Definition imageCatch (apiError : JsError) : completion HttpResponse :=
  if authFailed apiError then
    Normal {| status := 401;
              body := ErrorBody "Gemini API authentication failed. Please check your API key."
                        (Some "auth_failed") false |}
  else if quotaExceeded apiError then
    Normal {| status := 429;
              body := ErrorBody "Gemini API quota exceeded. Please check your billing or try again later."
                        (Some "quota_exceeded") false |}
  else Throw apiError.

(** The [catch] block of the handler, lines 172-202. *)
Definition handlerCatch (apiError : JsError) : HttpResponse :=
  if authFailed apiError then
    {| status := 401;
       body := ErrorBody "Gemini API authentication failed. Please check your API key."
                 (Some "auth_failed") false |}
  else if quotaExceeded apiError then
    {| status := 429;
       body := ErrorBody "Gemini API quota exceeded. Please check your billing or try again later."
                 (Some "quota_exceeded") false |}
  else
    {| status := 500;
       body := ErrorBody (if bool_decide (err_message apiError = "")
                          then "Internal server error"
                          else err_message apiError)
                 None false |}.

(** [{ error: 'No image file or OCR text provided' }], status 400. *)
Definition nothingProvided : HttpResponse :=
  {| status := 400;
     body := ErrorBody "No image file or OCR text provided" None false |}.

(** [if (file)]: a [File] is truthy, a string is unless it is empty. *)
Definition entryTruthy (entry : FormDataEntryValue) : bool :=
  match entry with
  | TextEntry text => negb (bool_decide (text = ""))
  | FileEntry _ => true
  end.

(** [file.type], as the template literal of line 334 of
    [productParser.ts] renders it: a string has no property [type], and
    [undefined] is rendered as `undefined`. *)
Definition mimeTypeOf (entry : FormDataEntryValue) : string :=
  match entry with
  | TextEntry _ => "undefined"
  | FileEntry file => type file
  end.

Section Handler.

Context (create : string → ChatRequest → completion value).
Context (JSON_parse : string → completion value).

(** [fileToBase64] of [src/lib/imageUtils.ts], on what the handler
    passes to it (the entry `image` as it is): the encoding of the bytes
    of a file, or a rejection. *)
Context (fileToBase64 : FormDataEntryValue → completion string).

(** Strategy 2, lines 111-166, entered with a truthy entry: a response,
    an error for the [catch] block of the handler, or [None] when the
    block is left without a response. *)
Definition imageStrategy (file : FormDataEntryValue)
    (geminiApiKey : option string) (log : list ChatRequest) :
    completion (option HttpResponse) * list ChatRequest :=
  if keyMissing geminiApiKey then
    (Normal (Some {| status := 400;
                     body := ErrorBody "Gemini API key not configured. Please add GEMINI_API_KEY to your environment variables."
                               None true |}),
     log)
  else
    match fileToBase64 file with
    | Throw error => (response ← imageCatch error; mret (Some response), log)
    | Normal base64 =>
        match parseProductImage create JSON_parse base64 (mimeTypeOf file)
                geminiApiKey log with
        | (Normal productData, log') =>
            (Normal (if hasData productData
                     then Some {| status := 200;
                                  body := ScanBody {| success := true;
                                                      data := productData;
                                                      message := None;
                                                      code := None |} |}
                     else None),
             log')
        | (Throw error, log') => (response ← imageCatch error; mret (Some response), log')
        end
    end.

(** [POST], lines 10-203.  `formData` is the outcome of
    [request.formData()] with what [formData.get] returns for `image`
    and for `ocrText` ([None] for [null]). *)
Definition POST
    (formData : completion (option FormDataEntryValue
                            * option FormDataEntryValue))
    (geminiApiKey : option string) (log : list ChatRequest) :
    HttpResponse * list ChatRequest :=
  let '(outcome, log') :=
    match formData with
    | Throw error => (Throw error, log)
    | Normal (file, ocrText) =>
        match POST_ocrText create JSON_parse ocrText geminiApiKey log with
        | (Throw error, log') => (Throw error, log')
        | (Normal (Some response), log') =>
            (Normal {| status := 200; body := ScanBody response |}, log')
        | (Normal None, log') =>
            match file with
            | Some image =>
                if entryTruthy image then
                  match imageStrategy image geminiApiKey log' with
                  | (Normal (Some response), log'') => (Normal response, log'')
                  | (Normal None, log'') => (Normal nothingProvided, log'')
                  | (Throw error, log'') => (Throw error, log'')
                  end
                else (Normal nothingProvided, log')
            | None => (Normal nothingProvided, log')
            end
        end
    end in
  match outcome with
  | Normal response => (response, log')
  | Throw error => (handlerCatch error, log')
  end.

End Handler.

End ScanEndpoint.

(** * Properties *)

Import JS Zod ProductParser ScanRoute ScanEndpoint.

(** ** Vocabulary of the statements *)

(** The own property `k` of an object with properties `m`, [undefined]
    when there is none: what [data.k] reads from a parsed JSON object. *)
Definition prop (m : gmap string value) (k : string) : value :=
  default VUndef (m !! k).

(** What a read gives where it cannot throw. *)
Definition getOr (v : value) (k : string) : value :=
  match Get v k with Normal x => x | Throw _ => VUndef end.

(** An object, as opposed to a primitive or an array. *)
Definition isObject (v : value) : Prop :=
  match v with VObj _ _ => True | _ => False end.

(** [undefined] or [null]: the values whose properties cannot be read. *)
Definition isNullish (v : value) : bool :=
  match v with VUndef | VNull => true | _ => false end.

(** The values that [String] converts without throwing: no object whose
    built-in [toString] is hidden, at any depth of nested arrays. *)
Fixpoint stringifiable (v : value) : bool :=
  match v with
  | VArr l => forallb stringifiable l
  | VObj _ _ => hasBuiltinToString v
  | _ => true
  end.

(** The test of line 7 on a parsed object: [classifiedFlat m] when
    [flattenNestedData] takes the object with properties `m` as flat. *)
Definition classifiedFlat (m : gmap string value) : bool :=
  truthy (prop m "name") || truthy (prop m "company")
  || (negb (truthy (prop m "Basic Information"))
      && negb (truthy (prop m "Dates & Batch"))).

(** The value that a lifting block finds under `heading` and `key`:
    [data[heading][key]] when the group and the value are truthy, and
    [undefined] when the block lifts nothing. *)
Definition lifted (m : gmap string value) (heading key : string) : value :=
  let group := prop m heading in
  if truthy group && truthy (getOr group key) then getOr group key
  else VUndef.

(** The headings and keys of the lifting blocks, lines 24-62. *)
Definition liftedKeys : list (string * string) :=
  [ ("Ingredients & Nutrition", "ingredients");
    ("Ingredients & Nutrition", "nutritionalInfo");
    ("Manufacturing & Regulatory", "manufacturingAddresses");
    ("Manufacturing & Regulatory", "fssaiLicense");
    ("Manufacturing & Regulatory", "vegetarian");
    ("Contact Information", "consumerContact");
    ("Other Details", "otherDetails") ].

(** The six headings with the fields that the instruction of
    [parseProductText] puts under each (lines 139-181). *)
Definition groups : list (string * list string) :=
  [ ("Basic Information",
      [ "name"; "company"; "manufacturer"; "trademark"; "barcode";
        "netWeight"; "mrp"; "price" ]);
    ("Dates & Batch",
      [ "expiryDate"; "bestBefore"; "manufacturingDate"; "batchNumber" ]);
    ("Ingredients & Nutrition", [ "ingredients"; "nutritionalInfo" ]);
    ("Manufacturing & Regulatory",
      [ "manufacturingAddresses"; "fssaiLicense"; "vegetarian" ]);
    ("Contact Information", [ "consumerContact" ]);
    ("Other Details", [ "otherDetails" ]) ].

(** All six groups are populated: an object under each heading, and a
    truthy value under each of the seven keys lifted. *)
Definition populated (m : gmap string value) : bool :=
  forallb (λ heading,
             match prop m heading with VObj _ _ => true | _ => false end)
    groups.*1
  && forallb (λ entry, truthy (lifted m entry.1 entry.2)) liftedKeys.

(** `flattened` after the two merges of lines 14-22. *)
Definition merged (m : gmap string value) : value :=
  let basic := prop m "Basic Information" in
  let dates := prop m "Dates & Batch" in
  let flattened :=
    if truthy basic then Object_assign (JObj ∅) basic else JObj ∅ in
  if truthy dates then Object_assign flattened dates else flattened.

(** [if (x) flattened[key] = x] *)
Definition setIf (flattened : value) (key : string) (x : value) : value :=
  if truthy x then SetProperty flattened key x else flattened.

(** The grouped branch of [flattenNestedData] on a parsed object, in
    terms of the values lifted. *)
Definition flattenGrouped (m : gmap string value) : completion value :=
  let flattened := merged m in
  let flattened := setIf flattened "ingredients"
    (lifted m "Ingredients & Nutrition" "ingredients") in
  let flattened := setIf flattened "nutritionalInfo"
    (lifted m "Ingredients & Nutrition" "nutritionalInfo") in
  let flattened := setIf flattened "manufacturingAddresses"
    (lifted m "Manufacturing & Regulatory" "manufacturingAddresses") in
  let fssaiLicense := lifted m "Manufacturing & Regulatory" "fssaiLicense" in
  flattened ←
    (if truthy fssaiLicense then
       text ← joinOrString fssaiLicense;
       mret (SetProperty flattened "fssaiLicense" (VStr text))
     else mret flattened);
  let vegetarian := lifted m "Manufacturing & Regulatory" "vegetarian" in
  flattened ←
    (if truthy vegetarian then
       text ← ToString vegetarian;
       mret (SetProperty flattened "vegetarian" (VStr text))
     else mret flattened);
  let flattened := setIf flattened "consumerContact"
    (lifted m "Contact Information" "consumerContact") in
  mret (setIf flattened "otherDetails"
          (lifted m "Other Details" "otherDetails")).

(** The two values that the regulatory block converts to strings are
    stringifiable. *)
Definition regulatoryConvertible (m : gmap string value) : bool :=
  stringifiable (lifted m "Manufacturing & Regulatory" "fssaiLicense")
  && stringifiable (lifted m "Manufacturing & Regulatory" "vegetarian").

(** The record of the field by field extraction, in closed form. *)
Definition bestEffortFields (flat : value) : gmap string value :=
  list_to_map
    ((λ '(key, f), (key, f (getOr flat key))) <$>
       [ ("name", coalesceUndefined);
         ("company", coalesceUndefined);
         ("manufacturer", coalesceUndefined);
         ("ingredients", coalesceUndefined);
         ("expiryDate", coalesceUndefined);
         ("bestBefore", coalesceUndefined);
         ("mrp", coalesceUndefined);
         ("price", coalesceUndefined);
         ("netWeight", coalesceUndefined);
         ("batchNumber", coalesceUndefined);
         ("manufacturingDate", coalesceUndefined);
         ("barcode", coalesceUndefined);
         ("nutritionalInfo", id);
         ("manufacturingAddresses", coalesceUndefined);
         ("fssaiLicense", coalesceUndefined);
         ("consumerContact", id);
         ("vegetarian", coalesceUndefined);
         ("trademark", coalesceUndefined);
         ("otherDetails", coalesceUndefined) ]).

(** The first character of a property name is a decimal digit, as it is
    for every array index. *)
Definition headIsDigit (k : string) : bool :=
  match k with
  | String a _ =>
      ((48 <=? Ascii.nat_of_ascii a) && (Ascii.nat_of_ascii a <=? 57))%nat
  | EmptyString => false
  end.

(** The answer of the gateway decodes to `parsed`: the call returns a
    response, the response has a content, and [JSON.parse] of the
    content gives `parsed`. *)
Definition decodesTo (create : string → ChatRequest → completion value)
    (JSON_parse : string → completion value)
    (key : string) (request : ChatRequest) (parsed : value) : Prop :=
  ∃ response content text,
    create key request = Normal response
    ∧ responseContent response = Normal content
    ∧ truthy content = true
    ∧ ToString content = Normal text
    ∧ JSON_parse text = Normal parsed.

(** The value that [z.object] reads under a key of its shape. *)
Definition readKey (input : value) (key : string) : value :=
  match lookupChain key input with Found x => x | _ => VUndef end.

(** The types of the fields of [ProductData], the type inferred from
    [ProductSchema] (line 114): an optional string, an optional array of
    strings, an optional record of optional strings under the given
    keys, an optional map of strings. *)
Definition isString (v : value) : bool :=
  match v with VStr _ => true | _ => false end.

Definition optionalString (v : value) : bool :=
  match v with VUndef | VStr _ => true | _ => false end.

Definition optionalStrings (v : value) : bool :=
  match v with
  | VUndef => true
  | VArr l => forallb isString l
  | _ => false
  end.

Definition optionalRecord (keys : list string) (v : value) : bool :=
  match v with
  | VUndef => true
  | VObj None m =>
      bool_decide (map_Forall (λ k x, k ∈ keys ∧ optionalString x = true) m)
  | _ => false
  end.

Definition optionalStringMap (v : value) : bool :=
  match v with
  | VUndef => true
  | VObj None m => bool_decide (map_Forall (λ _ x, isString x = true) m)
  | _ => false
  end.

Definition productTypes : list (string * (value → bool)) :=
  [ ("name", optionalString);
    ("company", optionalString);
    ("manufacturer", optionalString);
    ("ingredients", optionalStrings);
    ("expiryDate", optionalString);
    ("bestBefore", optionalString);
    ("mrp", optionalString);
    ("price", optionalString);
    ("netWeight", optionalString);
    ("batchNumber", optionalString);
    ("manufacturingDate", optionalString);
    ("barcode", optionalString);
    ("nutritionalInfo",
      optionalRecord
        [ "energy"; "protein"; "totalCarbohydrate"; "sugars"; "totalFat";
          "saturatedFat"; "transFat"; "sodium"; "servingSize" ]);
    ("manufacturingAddresses", optionalStrings);
    ("fssaiLicense", optionalString);
    ("consumerContact",
      optionalRecord [ "phone"; "email"; "address"; "website" ]);
    ("vegetarian", optionalString);
    ("trademark", optionalString);
    ("otherDetails", optionalStringMap) ].

(** A schema that accepts its own outputs and returns them unchanged. *)
Definition stable (schema : Schema) : Prop :=
  ∀ x out, schema x = Some out → schema out = Some out.

(** A text that consists of white space only (the empty text
    included). *)
Fixpoint blank (s : string) : bool :=
  match s with
  | EmptyString => true
  | String a rest => isWhiteSpace a && blank rest
  end.

(** ** Answers, gateways and decoders of the examples *)

(** A flat answer. *)
Definition chocoBar : gmap string value :=
  {[ "name" := VStr "Choco Bar";
     "mrp" := VStr "Rs 50";
     "ingredients" := VArr [VStr "Cocoa"; VStr "Sugar"; VStr "Milk"] ]}.

(** A grouped answer whose groups hold a string, a number, [null], an
    array and a boolean. *)
Definition oddGroups : gmap string value :=
  {[ "Basic Information" := VStr "Tea";
     "Dates & Batch" := VNum "2025";
     "Ingredients & Nutrition" := VNull;
     "Manufacturing & Regulatory" :=
       JObj {[ "fssaiLicense" := VNum "1234"; "vegetarian" := VBool true ]};
     "Contact Information" := VArr [VStr "a"];
     "Other Details" := VBool true ]}.

(** A grouped answer with an object that has a property `toString`
    under `fssaiLicense`. *)
Definition hiddenToString : value :=
  JObj {[ "Basic Information" := JObj {[ "name" := VStr "Tea" ]};
          "Manufacturing & Regulatory" :=
            JObj {[ "fssaiLicense" := JObj {[ "toString" := VStr "x" ]} ]} ]}.

(** A grouped answer with an empty `consumerContact`. *)
Definition emptyContact : gmap string value :=
  {[ "Basic Information" := JObj {[ "name" := VStr "Tea" ]};
     "Contact Information" := JObj {[ "consumerContact" := VStr "" ]} ]}.

(** A grouped answer with its six groups. *)
Definition fullLabel : gmap string value :=
  {[ "Basic Information" :=
       JObj {[ "name" := VStr "Tea"; "company" := VStr "Leaf & Co" ]};
     "Dates & Batch" := JObj {[ "expiryDate" := VStr "2025-12-01" ]};
     "Ingredients & Nutrition" :=
       JObj {[ "ingredients" := VArr [VStr "Tea leaves"];
               "nutritionalInfo" := JObj {[ "energy" := VStr "2 kcal" ]} ]};
     "Manufacturing & Regulatory" :=
       JObj {[ "manufacturingAddresses" := VArr [VStr "Plot 4, Assam"];
               "fssaiLicense" := VArr [VStr "A1234"; VStr "B5678"];
               "vegetarian" := VBool true ]};
     "Contact Information" :=
       JObj {[ "consumerContact" := JObj {[ "phone" := VStr "1800" ]} ]};
     "Other Details" :=
       JObj {[ "otherDetails" := JObj {[ "grade" := VStr "A" ]} ]} ]}.

(** The six groups, with an object under `fssaiLicense` that has a
    property `toString`. *)
Definition unconvertibleLicense : gmap string value :=
  <[ "Manufacturing & Regulatory" :=
       JObj {[ "manufacturingAddresses" := VArr [VStr "Plot 4, Assam"];
               "fssaiLicense" := JObj {[ "toString" := VStr "x" ]};
               "vegetarian" := VBool true ]} ]> fullLabel.

(** The six groups, with a key `__proto__` under `Basic Information`. *)
Definition prototypeInGroup : gmap string value :=
  <[ "Basic Information" :=
       JObj {[ "name" := VStr "Tea";
               "__proto__" := JObj {[ "brand" := VStr "Leaf" ]} ]} ]> fullLabel.

(** A grouped answer without `Contact Information`. *)
Definition noContactGroup : gmap string value :=
  {[ "Basic Information" := JObj {[ "name" := VStr "Tea" ]};
     "Dates & Batch" := JObj {[ "expiryDate" := VStr "2025-12-01" ]} ]}.

(** A grouped answer without `Contact Information` that carries
    `consumerContact` under `Basic Information`. *)
Definition contactUnderBasic : gmap string value :=
  {[ "Basic Information" :=
       JObj {[ "name" := VStr "Tea";
               "consumerContact" := JObj {[ "phone" := VStr "1800" ]} ]} ]}.

(** A flat answer with one string under `ingredients`. *)
Definition stringIngredients : gmap string value :=
  {[ "name" := VStr "Choco Bar"; "ingredients" := VStr "Cocoa, Sugar" ]}.

(** Gateways and decoders for the examples: a gateway that fails with a
    status, a gateway that replies with a content, a decoder that
    rejects every text and one that yields a fixed value. *)
Definition gatewayFails (status : Z) : string → ChatRequest → completion value :=
  λ _ _, Throw (mkError "Request failed" (Some status) None).

Definition gatewayReplies (content : value) :
    string → ChatRequest → completion value :=
  λ _ _, Normal (JObj {[ "choices" :=
                          VArr [JObj {[ "message" :=
                                          JObj {[ "content" := content ]} ]}] ]}).

Definition rejects : string → completion value :=
  λ _, Throw (SyntaxError "Unexpected token").

Definition yields (parsed : value) : string → completion value :=
  λ _, Normal parsed.

(** A grouped answer in which `Basic Information` carries keys of the
    other groups too. *)
Definition overlappingGroups : gmap string value :=
  {[ "Basic Information" :=
       JObj {[ "name" := VStr "Tea";
               "ingredients" := VStr "see pack";
               "fssaiLicense" := VNum "1" ]};
     "Ingredients & Nutrition" :=
       JObj {[ "ingredients" := VArr [VStr "Tea leaves"] ]};
     "Manufacturing & Regulatory" :=
       JObj {[ "fssaiLicense" := VArr [VStr "A1234"; VStr "B5678"] ]} ]}.

(** A flat answer with [null]s and keys that are not canonical. *)
Definition nullsAndExtras : gmap string value :=
  {[ "name" := VStr "Tea";
     "mrp" := VNull;
     "rating" := VNum "5";
     "nutritionalInfo" :=
       JObj {[ "energy" := VNull; "protein" := VStr "1 g";
               "fibre" := VStr "2 g" ]} ]}.

(** A flat answer with a number under `mrp`. *)
Definition numericPrice : gmap string value :=
  {[ "name" := VStr "Tea"; "mrp" := VNum "50" ]}.

(** A file of the form, and an encoder for it. *)
Definition labelPhoto : File := {| type := "image/png"; bytes := "PNG" |}.

Definition encodes (base64 : string) :
    FormDataEntryValue → completion string :=
  λ _, Normal base64.

(** ** Sequencing and reading *)

Lemma bind_Normal {A B} (a : A) (f : A → completion B) :
  (Normal a ≫= f) = f a.
Proof. done. Qed.

Lemma bind_Throw {A B} (e : JsError) (f : A → completion B) :
  (Throw e ≫= f) = Throw e.
Proof. done. Qed.

Lemma Get_JObj (m : gmap string value) (k : string) :
  Get (JObj m) k = Normal (prop m k).
Proof. unfold prop. simpl. by destruct (m !! k). Qed.

Lemma Get_truthy (v : value) (k : string) :
  truthy v = true → ∃ x, Get v k = Normal x.
Proof. destruct v; simpl; try discriminate; eauto. Qed.

Lemma Get_getOr (v : value) (k : string) :
  truthy v = true → Get v k = Normal (getOr v k).
Proof. intros [x Hx]%(Get_truthy _ k). unfold getOr. by rewrite Hx. Qed.

Lemma getOr_JObj (m : gmap string value) k : getOr (JObj m) k = prop m k.
Proof. unfold getOr. by rewrite Get_JObj. Qed.

Lemma prop_Some (m : gmap string value) k v : m !! k = Some v → prop m k = v.
Proof. unfold prop. by intros ->. Qed.

Lemma prop_None (m : gmap string value) k : m !! k = None → prop m k = VUndef.
Proof. unfold prop. by intros ->. Qed.

Lemma prop_insert_ne (m : gmap string value) k k' v :
  k ≠ k' → prop (<[k:=v]> m) k' = prop m k'.
Proof. intros. unfold prop. by rewrite lookup_insert_ne. Qed.

Lemma prop_insert_eq (m : gmap string value) k v : prop (<[k:=v]> m) k = v.
Proof. unfold prop. by rewrite lookup_insert_eq. Qed.

(** ** The shape normaliser on a parsed object *)

Lemma mergeGroup_JObj heading (m : gmap string value) flattened :
  mergeGroup heading (JObj m) flattened =
    Normal (if truthy (prop m heading)
            then Object_assign flattened (prop m heading) else flattened).
Proof. unfold mergeGroup. by rewrite Get_JObj. Qed.

Lemma liftSingle_JObj heading key (m : gmap string value) flattened :
  liftSingle heading key (JObj m) flattened =
    Normal (setIf flattened key (lifted m heading key)).
Proof.
  unfold liftSingle, setIf, lifted. rewrite Get_JObj, bind_Normal.
  destruct (truthy (prop m heading)) eqn:Hg; [|done].
  rewrite (Get_getOr _ _ Hg), bind_Normal. simpl.
  by destruct (truthy (getOr _ _)) eqn:Hx; [rewrite Hx|].
Qed.

Lemma liftIngredientsNutrition_JObj (m : gmap string value) flattened :
  liftIngredientsNutrition (JObj m) flattened =
    Normal (setIf (setIf flattened "ingredients"
                     (lifted m "Ingredients & Nutrition" "ingredients"))
              "nutritionalInfo"
              (lifted m "Ingredients & Nutrition" "nutritionalInfo")).
Proof.
  unfold liftIngredientsNutrition, setIf, lifted. rewrite Get_JObj, bind_Normal.
  destruct (truthy (prop m _)) eqn:Hg; [|done].
  rewrite !(Get_getOr _ _ Hg), !bind_Normal. simpl.
  destruct (truthy (getOr _ "ingredients")) eqn:Hx; [rewrite Hx|];
    by destruct (truthy (getOr _ "nutritionalInfo")) eqn:Hy; [rewrite Hy|].
Qed.

Lemma liftManufacturing_JObj (m : gmap string value) flattened :
  liftManufacturing (JObj m) flattened =
    (let flattened := setIf flattened "manufacturingAddresses"
       (lifted m "Manufacturing & Regulatory" "manufacturingAddresses") in
     let fssaiLicense := lifted m "Manufacturing & Regulatory" "fssaiLicense" in
     flattened ←
       (if truthy fssaiLicense then
          text ← joinOrString fssaiLicense;
          mret (SetProperty flattened "fssaiLicense" (VStr text))
        else mret flattened);
     let vegetarian := lifted m "Manufacturing & Regulatory" "vegetarian" in
     if truthy vegetarian then
       text ← ToString vegetarian;
       mret (SetProperty flattened "vegetarian" (VStr text))
     else mret flattened).
Proof.
  unfold liftManufacturing, setIf, lifted. rewrite Get_JObj, bind_Normal.
  destruct (truthy (prop m _)) eqn:Hg; [|done].
  rewrite !(Get_getOr _ _ Hg), !bind_Normal. simpl.
  destruct (truthy (getOr _ "manufacturingAddresses")) eqn:Hx; [rewrite Hx|];
    (destruct (truthy (getOr _ "fssaiLicense")) eqn:Hy; [rewrite Hy|]);
    (destruct (truthy (getOr _ "vegetarian")) eqn:Hz; [rewrite Hz|]);
    done.
Qed.

(** The two branches of [flattenNestedData]. *)
Lemma flatten_flat (m : gmap string value) :
  classifiedFlat m = true → flattenNestedData (JObj m) = Normal (JObj m).
Proof.
  unfold classifiedFlat, flattenNestedData. intros H.
  rewrite !Get_JObj, !bind_Normal. by rewrite H.
Qed.

Lemma flatten_grouped (m : gmap string value) :
  classifiedFlat m = false → flattenNestedData (JObj m) = flattenGrouped m.
Proof.
  unfold classifiedFlat, flattenNestedData. intros H.
  rewrite !Get_JObj, !bind_Normal. rewrite H.
  rewrite mergeGroup_JObj, bind_Normal, mergeGroup_JObj, bind_Normal.
  rewrite liftIngredientsNutrition_JObj, bind_Normal.
  rewrite liftManufacturing_JObj. unfold flattenGrouped, merged. cbv zeta.
  destruct (if truthy (lifted m _ "fssaiLicense") then _ else _) as [fl|e];
    [rewrite !bind_Normal | done].
  destruct (if truthy (lifted m _ "vegetarian") then _ else _) as [fl'|e];
    [rewrite !bind_Normal | done].
  rewrite !liftSingle_JObj, !bind_Normal. rewrite liftSingle_JObj. done.
Qed.

(** *** Conversion to a string *)

(** Induction on a value through the elements of arrays. *)
Lemma value_array_ind (P : value → Prop) :
  P VUndef → P VNull → (∀ b, P (VBool b)) → (∀ r, P (VNum r)) →
  (∀ s, P (VStr s)) → (∀ l, Forall P l → P (VArr l)) →
  (∀ p m, P (VObj p m)) → ∀ v, P v.
Proof.
  intros Hu Hn Hb Hr Hs Ha Ho.
  fix IH 1.
  intros [| |b|r|s|l|p m];
    [apply Hu | apply Hn | apply Hb | apply Hr | apply Hs | | apply Ho].
  apply Ha. induction l as [|x l IHl]; constructor; [apply IH | apply IHl].
Qed.

Lemma Array_join_Normal (str : value → completion string) sep (l : list value) :
  Forall (λ x, stringifiable x = true → ∃ s, str x = Normal s) l →
  forallb stringifiable l = true →
  ∃ s, Array_join str sep l = Normal s.
Proof.
  induction 1 as [|x l Hx _ IH]; simpl; [eauto|].
  intros [Hsx Hsl]%andb_prop. destruct (IH Hsl) as [r Hr].
  assert (∃ s, match x with VUndef | VNull => Normal "" | _ => str x end
               = Normal s) as [s Hs].
  { destruct x; eauto. }
  rewrite Hs. simpl. destruct l; [eauto|]. rewrite Hr. simpl. eauto.
Qed.

Lemma ToString_Normal (v : value) :
  stringifiable v = true → ∃ s, ToString v = Normal s.
Proof.
  induction v as [| |b|r|s|l IH|p m] using value_array_ind; simpl; eauto.
  - destruct b; eauto.
  - intros Hl. by apply Array_join_Normal.
  - intros ->. eauto.
Qed.

Lemma joinOrString_Normal (v : value) :
  stringifiable v = true → ∃ s, joinOrString v = Normal s.
Proof.
  destruct v; try apply ToString_Normal. simpl. intros Hl.
  apply Array_join_Normal; [|done].
  apply Forall_forall. intros x _. apply ToString_Normal.
Qed.

Lemma Array_join_Throw (str : value → completion string) sep (l : list value) :
  Forall (λ x, stringifiable x = false → ∃ e, str x = Throw e) l →
  forallb stringifiable l = false →
  ∃ e, Array_join str sep l = Throw e.
Proof.
  induction 1 as [|x l Hx _ IH]; simpl; [done|].
  intros [Hsx|Hsl]%andb_false_iff.
  - destruct (Hx Hsx) as [e He].
    destruct x; try discriminate; rewrite He; simpl; eauto.
  - destruct (IH Hsl) as [e He].
    destruct (match x with VUndef | VNull => Normal "" | _ => str x end);
      simpl; [|eauto].
    destruct l; [done|]. rewrite He. simpl. eauto.
Qed.

Lemma ToString_Throw (v : value) :
  stringifiable v = false → ∃ e, ToString v = Throw e.
Proof.
  induction v as [| |b|r|s|l IH|p m] using value_array_ind; simpl; try done.
  - intros Hl. by apply Array_join_Throw.
  - intros ->. eauto.
Qed.

Lemma joinOrString_Throw (v : value) :
  stringifiable v = false → ∃ e, joinOrString v = Throw e.
Proof.
  destruct v; try apply ToString_Throw. simpl. intros Hl.
  apply Array_join_Throw; [|done].
  apply Forall_forall. intros x _. apply ToString_Throw.
Qed.

(** [stringifiable] is exactly the domain on which [String] returns. *)
Lemma stringifiable_spec (v : value) :
  stringifiable v = true ↔ ∃ s, ToString v = Normal s.
Proof.
  split; [apply ToString_Normal|]. intros [s Hs].
  destruct (stringifiable v) eqn:Hv; [done|].
  destruct (ToString_Throw _ Hv) as [e He]. congruence.
Qed.

Lemma stringifiable_falsy (v : value) : truthy v = false → stringifiable v = true.
Proof. by destruct v. Qed.

(** *** The result is an object *)

Lemma isObject_SetProperty o k v : isObject o → isObject (SetProperty o k v).
Proof.
  destruct o as [| | | | | |p m]; try done. intros _. unfold SetProperty.
  repeat case_match; done.
Qed.

Lemma isObject_Object_assign o src : isObject o → isObject (Object_assign o src).
Proof.
  destruct o as [| | | | | |p m]; try done. intros _. unfold Object_assign.
  case_match; [by apply isObject_SetProperty | done].
Qed.

Lemma isObject_setIf o k v : isObject o → isObject (setIf o k v).
Proof. unfold setIf. case_match; [apply isObject_SetProperty | done]. Qed.

Lemma isObject_merged (m : gmap string value) : isObject (merged m).
Proof.
  unfold merged. repeat case_match; repeat apply isObject_Object_assign; done.
Qed.

Lemma flattenGrouped_Normal (m : gmap string value) :
  regulatoryConvertible m = true →
  ∃ p props, flattenGrouped m = Normal (VObj p props).
Proof.
  intros [Hf Hv]%andb_prop. unfold flattenGrouped. cbv zeta.
  destruct (joinOrString_Normal _ Hf) as [s1 Hs1].
  destruct (ToString_Normal _ Hv) as [s2 Hs2]. rewrite Hs1, Hs2.
  match goal with
  | |- ∃ p props, ?c = _ =>
      assert (∃ o, c = Normal o ∧ isObject o) as (o & -> & Ho)
  end.
  { repeat case_match; rewrite ?bind_Normal; eexists; (split; [done|]);
      repeat first [apply isObject_setIf | apply isObject_SetProperty];
      apply isObject_merged. }
  destruct o; try done. eauto.
Qed.

(** Conversely, a grouped object whose regulatory values cannot be
    converted makes [flattenNestedData] throw. *)
Lemma flattenGrouped_Throw (m : gmap string value) :
  regulatoryConvertible m = false → ∃ e, flattenGrouped m = Throw e.
Proof.
  unfold regulatoryConvertible, flattenGrouped. cbv zeta.
  set (f := lifted m _ "fssaiLicense"). set (v := lifted m _ "vegetarian").
  intros Hc.
  destruct (stringifiable f) eqn:Hf.
  - simpl in Hc. destruct (truthy v) eqn:Htv;
      [|by rewrite stringifiable_falsy in Hc].
    destruct (ToString_Throw _ Hc) as [e He].
    destruct (joinOrString_Normal _ Hf) as [s Hs]. rewrite He, Hs.
    destruct (truthy f); rewrite ?bind_Normal, bind_Throw; eauto.
  - destruct (truthy f) eqn:Htf; [|by rewrite stringifiable_falsy in Hf].
    destruct (joinOrString_Throw _ Hf) as [e He]. rewrite He. eauto.
Qed.

(** *** Flat input *)

(** C3.  Identity on flat input: an object that has a truthy (non-empty)
    `name` or `company`, or that lacks both `Basic Information` and
    `Dates & Batch`, is returned unchanged by [flattenNestedData]; hence
    normalising the result once more changes nothing. *)
Theorem flatten_identity_on_flat (m : gmap string value) :
  truthy (prop m "name") = true
  ∨ truthy (prop m "company") = true
  ∨ (m !! "Basic Information" = None ∧ m !! "Dates & Batch" = None) →
  flattenNestedData (JObj m) = Normal (JObj m)
  ∧ (flattenNestedData (JObj m) ≫= flattenNestedData)
    = flattenNestedData (JObj m).
Proof.
  intros H.
  assert (classifiedFlat m = true) as Hflat.
  { unfold classifiedFlat. destruct H as [->| [->| [Hb Hd]]]; [done| |].
    - by rewrite orb_true_r.
    - rewrite (prop_None _ _ Hb), (prop_None _ _ Hd). simpl.
      by rewrite orb_true_r. }
  rewrite (flatten_flat _ Hflat), bind_Normal. split; [done|].
  by apply flatten_flat.
Qed.

Lemma flatten_identity_on_flat_witness :
  truthy (prop chocoBar "name") = true
  ∧ flattenNestedData (JObj chocoBar) = Normal (JObj chocoBar)
  ∧ (flattenNestedData (JObj chocoBar) ≫= flattenNestedData)
    = flattenNestedData (JObj chocoBar).
Proof.
  split; [reflexivity|].
  apply (flatten_identity_on_flat chocoBar). left. reflexivity.
Defined.

(** Outside the flat inputs the result of the grouped branch need not be
    flat: a group nested under its own heading is normalised again by a
    second pass. *)
Example flatten_twice_nested_heading :
  let data := JObj {[ "Basic Information" :=
                        JObj {[ "Basic Information" :=
                                  JObj {[ "trademark" := VStr "TM" ]} ]} ]} in
  flattenNestedData data
    = Normal (JObj {[ "Basic Information" := JObj {[ "trademark" := VStr "TM" ]} ]})
  ∧ (flattenNestedData data ≫= flattenNestedData)
    = Normal (JObj {[ "trademark" := VStr "TM" ]}).
Proof. split; vm_compute; reflexivity. Qed.

(** *** Totality *)

(** C10, as amended.  On every parsed object whose two regulatory
    values can be converted to strings, [flattenNestedData] returns an
    object, whatever the group keys hold (primitives, [null], arrays). *)
Theorem flatten_returns_object (m : gmap string value) :
  regulatoryConvertible m = true →
  ∃ p props, flattenNestedData (JObj m) = Normal (VObj p props).
Proof.
  intros Hc. destruct (classifiedFlat m) eqn:Hflat.
  - rewrite (flatten_flat _ Hflat). eauto.
  - rewrite (flatten_grouped _ Hflat). by apply flattenGrouped_Normal.
Qed.

Lemma flatten_returns_object_witness :
  regulatoryConvertible oddGroups = true
  ∧ ∃ p props, flattenNestedData (JObj oddGroups) = Normal (VObj p props).
Proof.
  split; [vm_compute; reflexivity|].
  apply (flatten_returns_object oddGroups). vm_compute. reflexivity.
Defined.

(** C10, as stated, fails: an object under `fssaiLicense` that has a
    property named `toString` cannot be converted by [String], and
    [flattenNestedData] throws. *)
Lemma flatten_throws_on_hidden_toString :
  flattenNestedData hiddenToString
    = Throw (TypeError "Cannot convert object to primitive value")
  ∧ ¬ ∃ r, flattenNestedData hiddenToString = Normal r.
Proof.
  assert (flattenNestedData hiddenToString
          = Throw (TypeError "Cannot convert object to primitive value")) as H.
  { vm_compute. reflexivity. }
  split; [done|]. intros [r Hr]. rewrite H in Hr. discriminate.
Qed.

(** The condition of [flatten_returns_object] is exact on grouped
    objects. *)
Lemma flatten_throws_iff (m : gmap string value) :
  (∃ e, flattenNestedData (JObj m) = Throw e)
  ↔ classifiedFlat m = false ∧ regulatoryConvertible m = false.
Proof.
  split.
  - intros [e He]. destruct (classifiedFlat m) eqn:Hf.
    { rewrite (flatten_flat _ Hf) in He. discriminate. }
    split; [done|]. destruct (regulatoryConvertible m) eqn:Hc; [|done].
    rewrite (flatten_grouped _ Hf) in He.
    destruct (flattenGrouped_Normal _ Hc) as (p & props & Hr). congruence.
  - intros [Hf Hc]. rewrite (flatten_grouped _ Hf). by apply flattenGrouped_Throw.
Qed.

(** *** Falsy values in a group *)

Lemma lifted_falsy_group (m : gmap string value) heading key :
  truthy (prop m heading) = false → lifted m heading key = VUndef.
Proof. unfold lifted. by intros ->. Qed.

(** Deleting a falsy key of a group changes no lifted value. *)
Lemma lifted_delete_falsy (m gm : gmap string value) g k v heading key :
  m !! g = Some (JObj gm) → gm !! k = Some v → truthy v = false →
  lifted (<[g := JObj (delete k gm)]> m) heading key = lifted m heading key.
Proof.
  intros Hg Hk Hv. unfold lifted. destruct (decide (g = heading)) as [->|Hne].
  - rewrite prop_insert_eq, (prop_Some _ _ _ Hg), !getOr_JObj. simpl.
    destruct (decide (k = key)) as [->|Hkey].
    + rewrite (prop_Some _ _ _ Hk), Hv. unfold prop.
      by rewrite lookup_delete_eq.
    + unfold prop. by rewrite lookup_delete_ne.
  - by rewrite prop_insert_ne.
Qed.

Lemma flattenGrouped_ext (m m' : gmap string value) :
  merged m = merged m' →
  (∀ heading key, (heading, key) ∈ liftedKeys →
                  lifted m heading key = lifted m' heading key) →
  flattenGrouped m = flattenGrouped m'.
Proof.
  intros Hm Hl. unfold flattenGrouped. rewrite Hm.
  rewrite !(Hl _ _); [done | unfold liftedKeys; set_solver ..].
Qed.

Lemma lifted_heading (g k : string) :
  (g, k) ∈ liftedKeys →
  g ≠ "name" ∧ g ≠ "company" ∧ g ≠ "Basic Information" ∧ g ≠ "Dates & Batch".
Proof.
  unfold liftedKeys. rewrite !elem_of_cons, elem_of_nil.
  intros H. destruct_or!; simplify_eq; done.
Qed.

(** C7, as amended.  In a grouped object, a key that a lifting block
    reads (`ingredients`, `nutritionalInfo`, `manufacturingAddresses`,
    `fssaiLicense`, `vegetarian`, `consumerContact`, `otherDetails`, each
    under its heading) and whose value is falsy is treated as absent:
    the result is the one for the object without that key. *)
Theorem falsy_lifted_key_is_absent (m gm : gmap string value) g k v :
  classifiedFlat m = false →
  (g, k) ∈ liftedKeys →
  m !! g = Some (JObj gm) → gm !! k = Some v → truthy v = false →
  flattenNestedData (JObj m)
    = flattenNestedData (JObj (<[g := JObj (delete k gm)]> m)).
Proof.
  intros Hflat (Hn & Hc & Hb & Hd)%lifted_heading Hg Hk Hv.
  assert (classifiedFlat (<[g := JObj (delete k gm)]> m) = false) as Hflat'.
  { unfold classifiedFlat in *. by rewrite !prop_insert_ne. }
  rewrite (flatten_grouped _ Hflat), (flatten_grouped _ Hflat').
  apply flattenGrouped_ext.
  - unfold merged. by rewrite !prop_insert_ne.
  - intros heading key _. symmetry. by eapply lifted_delete_falsy.
Qed.

Lemma falsy_lifted_key_is_absent_witness :
  truthy (VStr "") = false
  ∧ flattenNestedData (JObj emptyContact)
    = flattenNestedData
        (JObj (<["Contact Information" :=
                   JObj (delete "consumerContact"
                           {[ "consumerContact" := VStr "" ]})]> emptyContact)).
Proof.
  split; [reflexivity|].
  apply (falsy_lifted_key_is_absent emptyContact
           {[ "consumerContact" := VStr "" ]}
           "Contact Information" "consumerContact" (VStr ""));
    [reflexivity | | reflexivity | reflexivity | reflexivity].
  unfold liftedKeys. rewrite !elem_of_cons. do 5 right. left. reflexivity.
Defined.

(** C7, as stated, fails for the two merged groups: [Object.assign]
    copies every key of `Basic Information` and `Dates & Batch`, the
    falsy ones included. *)
Lemma falsy_merged_key_is_kept :
  truthy (VStr "") = false
  ∧ flattenNestedData
      (JObj {[ "Basic Information" :=
                 JObj {[ "name" := VStr "Tea"; "trademark" := VStr "" ]} ]})
    = Normal (JObj {[ "name" := VStr "Tea"; "trademark" := VStr "" ]}).
Proof. split; vm_compute; reflexivity. Qed.

(** *** Populated groups *)

Lemma SetProperty_own p (m : gmap string value) k v :
  k ≠ "__proto__" → SetProperty (VObj p m) k v = VObj p (<[k:=v]> m).
Proof. intros Hk. unfold SetProperty. by rewrite bool_decide_eq_false_2. Qed.

Lemma setIf_truthy p (m : gmap string value) k v :
  k ≠ "__proto__" → truthy v = true →
  setIf (VObj p m) k v = VObj p (<[k:=v]> m).
Proof. intros Hk Hv. unfold setIf. rewrite Hv. by apply SetProperty_own. Qed.

(** [Object.assign] from an object without a key `__proto__` is the
    union in which the source wins. *)
Lemma Object_assign_union p (m src : gmap string value) q :
  src !! "__proto__" = None →
  Object_assign (VObj p m) (VObj q src) = VObj p (src ∪ m).
Proof.
  intros Hs. unfold Object_assign. simpl. rewrite Hs.
  by rewrite delete_id.
Qed.

Lemma lifted_Some (m gm : gmap string value) heading key v :
  m !! heading = Some (JObj gm) → gm !! key = Some v → truthy v = true →
  lifted m heading key = v.
Proof.
  intros Hg Hk Hv. unfold lifted.
  rewrite (prop_Some _ _ _ Hg), getOr_JObj, (prop_Some _ _ _ Hk). simpl.
  by rewrite Hv.
Qed.

Lemma Array_join_strings (sep : string) (l : list string) :
  Array_join ToString sep (VStr <$> l) = Normal (String.concat sep l).
Proof.
  induction l as [|s l IH]; [done|].
  cbn [fmap list_fmap Array_join]. cbn [ToString]. rewrite bind_Normal.
  destruct l as [|s' l]; [done|].
  cbn [fmap list_fmap] in *. rewrite IH. done.
Qed.

(** C4, as amended.  A grouped object with its six groups populated:
    the two merged groups are objects `basic` and `dates` without a key
    `__proto__`, the four other groups hold truthy values under the keys
    lifted, and the two conversions give the strings `license` and
    `veg` (they throw on an object whose [toString] is hidden).
    [flattenNestedData] returns the union of the keys of `basic` and
    `dates` (the later one winning) extended with the seven lifted
    fields.  Under `fssaiLicense`, a sequence of strings comes out as
    its elements joined with a comma and a space; under `fssaiLicense`
    and `vegetarian`, a string comes out as it is, a number as its
    decimal rendering and [true] as `true`. *)
Theorem flatten_populated_groups
    (m basic dates nutrition regulatory contact other : gmap string value)
    (ingredients nutritionalInfo manufacturingAddresses fssaiLicense
       vegetarian consumerContact otherDetails : value)
    (license veg : string) :
  classifiedFlat m = false →
  m !! "Basic Information" = Some (JObj basic) →
  basic !! "__proto__" = None →
  m !! "Dates & Batch" = Some (JObj dates) →
  dates !! "__proto__" = None →
  m !! "Ingredients & Nutrition" = Some (JObj nutrition) →
  nutrition !! "ingredients" = Some ingredients →
  nutrition !! "nutritionalInfo" = Some nutritionalInfo →
  m !! "Manufacturing & Regulatory" = Some (JObj regulatory) →
  regulatory !! "manufacturingAddresses" = Some manufacturingAddresses →
  regulatory !! "fssaiLicense" = Some fssaiLicense →
  regulatory !! "vegetarian" = Some vegetarian →
  m !! "Contact Information" = Some (JObj contact) →
  contact !! "consumerContact" = Some consumerContact →
  m !! "Other Details" = Some (JObj other) →
  other !! "otherDetails" = Some otherDetails →
  Forall (λ x, truthy x = true)
    [ ingredients; nutritionalInfo; manufacturingAddresses; fssaiLicense;
      vegetarian; consumerContact; otherDetails ] →
  joinOrString fssaiLicense = Normal license →
  ToString vegetarian = Normal veg →
  flattenNestedData (JObj m)
    = Normal (JObj (<["otherDetails" := otherDetails]>
                   (<["consumerContact" := consumerContact]>
                   (<["vegetarian" := VStr veg]>
                   (<["fssaiLicense" := VStr license]>
                   (<["manufacturingAddresses" := manufacturingAddresses]>
                   (<["nutritionalInfo" := nutritionalInfo]>
                   (<["ingredients" := ingredients]>
                   (dates ∪ basic)))))))))
  ∧ (∀ licenses : list string,
       fssaiLicense = VArr (VStr <$> licenses) →
       license = String.concat ", " licenses)
  ∧ (∀ s, fssaiLicense = VStr s → license = s)
  ∧ (∀ r, fssaiLicense = VNum r → license = r)
  ∧ (fssaiLicense = VBool true → license = "true")
  ∧ (∀ s, vegetarian = VStr s → veg = s)
  ∧ (∀ r, vegetarian = VNum r → veg = r)
  ∧ (vegetarian = VBool true → veg = "true").
Proof.
  intros Hflat Hb Hbp Hd Hdp Hn Hi Hni Hr Hma Hfl Hvg Hc Hcc Ho Hod Ht Hs1 Hs2.
  split.
  - rewrite !Forall_cons in Ht.
    destruct Ht as (Ti & Tni & Tma & Tfl & Tvg & Tcc & Tod & _).
    rewrite (flatten_grouped _ Hflat). unfold flattenGrouped, merged.
    rewrite (prop_Some _ _ _ Hb), (prop_Some _ _ _ Hd). simpl truthy. cbv iota.
    rewrite (Object_assign_union _ _ _ _ Hbp), (Object_assign_union _ _ _ _ Hdp).
    rewrite (right_id_L ∅ (∪)).
    rewrite (lifted_Some _ _ _ _ _ Hn Hi Ti), (lifted_Some _ _ _ _ _ Hn Hni Tni),
      (lifted_Some _ _ _ _ _ Hr Hma Tma), (lifted_Some _ _ _ _ _ Hr Hfl Tfl),
      (lifted_Some _ _ _ _ _ Hr Hvg Tvg), (lifted_Some _ _ _ _ _ Hc Hcc Tcc),
      (lifted_Some _ _ _ _ _ Ho Hod Tod).
    cbv zeta. rewrite Tfl, Tvg, Hs1, Hs2.
    rewrite !setIf_truthy by done.
    cbn [mbind completion_bind mret completion_ret].
    rewrite !SetProperty_own by done.
    rewrite !setIf_truthy by done. done.
  - repeat apply conj.
    + intros licenses ->. simpl in Hs1.
      rewrite Array_join_strings in Hs1. by injection Hs1.
    + intros s ->. by injection Hs1.
    + intros r ->. by injection Hs1.
    + intros ->. by injection Hs1.
    + intros s ->. by injection Hs2.
    + intros r ->. by injection Hs2.
    + intros ->. by injection Hs2.
Qed.

Lemma flatten_populated_groups_witness :
  classifiedFlat fullLabel = false
  ∧ flattenNestedData (JObj fullLabel)
    = Normal (JObj {[ "name" := VStr "Tea";
                      "company" := VStr "Leaf & Co";
                      "expiryDate" := VStr "2025-12-01";
                      "ingredients" := VArr [VStr "Tea leaves"];
                      "nutritionalInfo" := JObj {[ "energy" := VStr "2 kcal" ]};
                      "manufacturingAddresses" := VArr [VStr "Plot 4, Assam"];
                      "fssaiLicense" := VStr "A1234, B5678";
                      "vegetarian" := VStr "true";
                      "consumerContact" := JObj {[ "phone" := VStr "1800" ]};
                      "otherDetails" := JObj {[ "grade" := VStr "A" ]} ]}).
Proof.
  split; [reflexivity|].
  refine (eq_trans (proj1 (flatten_populated_groups fullLabel
    {[ "name" := VStr "Tea"; "company" := VStr "Leaf & Co" ]}
    {[ "expiryDate" := VStr "2025-12-01" ]}
    {[ "ingredients" := VArr [VStr "Tea leaves"];
       "nutritionalInfo" := JObj {[ "energy" := VStr "2 kcal" ]} ]}
    {[ "manufacturingAddresses" := VArr [VStr "Plot 4, Assam"];
       "fssaiLicense" := VArr [VStr "A1234"; VStr "B5678"];
       "vegetarian" := VBool true ]}
    {[ "consumerContact" := JObj {[ "phone" := VStr "1800" ]} ]}
    {[ "otherDetails" := JObj {[ "grade" := VStr "A" ]} ]}
    (VArr [VStr "Tea leaves"]) (JObj {[ "energy" := VStr "2 kcal" ]})
    (VArr [VStr "Plot 4, Assam"]) (VArr [VStr "A1234"; VStr "B5678"])
    (VBool true) (JObj {[ "phone" := VStr "1800" ]})
    (JObj {[ "grade" := VStr "A" ]}) "A1234, B5678" "true"
    _ _ _ _ _ _ _ _ _ _ _ _ _ _ _ _ _ _ _)) _);
    try reflexivity.
  repeat constructor.
Defined.

(** C4, as stated, fails.  With the six groups populated,
    [flattenNestedData] throws when the value under `fssaiLicense` is an
    object whose [toString] is hidden; and with a key `__proto__` under
    `Basic Information` it returns an object that has the value of that
    key as its prototype, which is no record of the lifted fields: it
    has no own key `__proto__` and reads `brand`, which no group holds
    as a field. *)
Lemma populated_groups_without_union :
  (populated unconvertibleLicense = true
   ∧ classifiedFlat unconvertibleLicense = false
   ∧ flattenNestedData (JObj unconvertibleLicense)
     = Throw (TypeError "Cannot convert object to primitive value"))
  ∧ (populated prototypeInGroup = true
     ∧ classifiedFlat prototypeInGroup = false
     ∧ ∃ props,
         flattenNestedData (JObj prototypeInGroup)
           = Normal (VObj (Some (JObj {[ "brand" := VStr "Leaf" ]})) props)
         ∧ props !! "__proto__" = None
         ∧ Get (VObj (Some (JObj {[ "brand" := VStr "Leaf" ]})) props) "brand"
           = Normal (VStr "Leaf")
         ∧ ∀ fields,
             flattenNestedData (JObj prototypeInGroup) ≠ Normal (JObj fields)).
Proof.
  split.
  - repeat apply conj; vm_compute; reflexivity.
  - split; [vm_compute; reflexivity|]. split; [vm_compute; reflexivity|].
    destruct (flattenNestedData (JObj prototypeInGroup)) as [r|e] eqn:Hr;
      [|vm_compute in Hr; discriminate].
    destruct r as [| | | | | |p props];
      try (vm_compute in Hr; discriminate).
    assert (p = Some (JObj {[ "brand" := VStr "Leaf" ]})) as ->.
    { vm_compute in Hr. by injection Hr as <- _. }
    exists props. split; [done|].
    assert (props !! "__proto__" = None) as Hown.
    { vm_compute in Hr. injection Hr as <-. vm_compute. reflexivity. }
    split; [exact Hown|]. split; [|done].
    assert (props !! "brand" = None) as Hbrand.
    { vm_compute in Hr. injection Hr as <-. vm_compute. reflexivity. }
    unfold Get. simpl. by rewrite Hbrand.
Qed.

(** *** Missing groups *)

Lemma lifted_insert_empty (m : gmap string value) g heading key :
  m !! g = None →
  lifted (<[g := JObj ∅]> m) heading key = lifted m heading key.
Proof.
  intros Hg. unfold lifted. destruct (decide (g = heading)) as [->|Hne].
  - by rewrite prop_insert_eq, (prop_None _ _ Hg), getOr_JObj.
  - by rewrite prop_insert_ne.
Qed.

Lemma Object_assign_empty o : isObject o → Object_assign o (JObj ∅) = o.
Proof.
  destruct o as [| | | | | |p m]; try done. intros _.
  rewrite Object_assign_union by done. by rewrite (left_id_L ∅ (∪)).
Qed.

Lemma merged_insert_empty (m : gmap string value) g :
  m !! g = None → merged (<[g := JObj ∅]> m) = merged m.
Proof.
  intros Hg. unfold merged.
  destruct (decide (g = "Basic Information")) as [->|Hb].
  - rewrite prop_insert_eq, prop_insert_ne by done.
    rewrite (prop_None _ _ Hg). simpl truthy. cbv iota.
    by rewrite Object_assign_empty.
  - rewrite (prop_insert_ne _ _ "Basic Information") by done.
    destruct (decide (g = "Dates & Batch")) as [->|Hd].
    + rewrite prop_insert_eq, (prop_None _ _ Hg). simpl truthy. cbv iota.
      apply Object_assign_empty.
      case_match; [by apply isObject_Object_assign | done].
    + by rewrite prop_insert_ne.
Qed.

Lemma classifiedFlat_insert_empty (m : gmap string value) g :
  g ≠ "name" → g ≠ "company" → classifiedFlat m = false →
  classifiedFlat (<[g := JObj ∅]> m) = false.
Proof.
  intros Hn Hc. unfold classifiedFlat. rewrite !(prop_insert_ne _ g "name"),
    !(prop_insert_ne _ g "company") by done.
  destruct (truthy (prop m "name")); [done|].
  destruct (truthy (prop m "company")); [done|]. simpl.
  destruct (decide (g = "Basic Information")) as [->|Hb].
  { by rewrite prop_insert_eq. }
  rewrite (prop_insert_ne _ g "Basic Information") by done.
  destruct (decide (g = "Dates & Batch")) as [->|Hd].
  { rewrite prop_insert_eq. simpl. by rewrite andb_false_r. }
  by rewrite prop_insert_ne.
Qed.

Lemma lookupChain_SetProperty_ne o k k' v :
  isObject o → k ≠ k' → k' ≠ "__proto__" →
  lookupChain k (SetProperty o k' v) = lookupChain k o.
Proof.
  destruct o as [| | | | | |p m]; try done. intros _ Hk Hp.
  rewrite SetProperty_own by done. simpl. by rewrite lookup_insert_ne.
Qed.

Lemma lookupChain_setIf o k k' x :
  isObject o → k' ≠ "__proto__" → (k = k' → x = VUndef) →
  lookupChain k (setIf o k' x) = lookupChain k o.
Proof.
  intros Ho Hp Hk. unfold setIf. destruct (truthy x) eqn:Hx; [|done].
  apply lookupChain_SetProperty_ne; [done| |done].
  intros ->. by rewrite Hk in Hx.
Qed.

Lemma lookupChain_converted (conv : value → completion string) o k k' x r :
  isObject o → k' ≠ "__proto__" → (k = k' → x = VUndef) →
  (if truthy x then text ← conv x; mret (SetProperty o k' (VStr text))
   else mret o) = Normal r →
  lookupChain k r = lookupChain k o ∧ isObject r.
Proof.
  intros Ho Hp Hk. destruct (truthy x) eqn:Hx.
  - destruct (conv x) as [text|e]; [|done]. intros [= <-].
    split; [|by apply isObject_SetProperty].
    apply lookupChain_SetProperty_ne; [done| |done].
    intros ->. by rewrite Hk in Hx.
  - by intros [= <-].
Qed.

(** A key that no lifting block lifts reads, from the result, what it
    reads after the two merges. *)
Lemma flattenGrouped_lookup (m : gmap string value) r k :
  flattenGrouped m = Normal r →
  (∀ heading, (heading, k) ∈ liftedKeys → lifted m heading k = VUndef) →
  lookupChain k r = lookupChain k (merged m) ∧ isObject r.
Proof.
  intros Hr Hk. unfold flattenGrouped in Hr. cbv zeta in Hr.
  assert (∀ heading k', (heading, k') ∈ liftedKeys →
            k = k' → lifted m heading k' = VUndef) as Hk'.
  { intros heading k' Hin <-. by apply Hk. }
  pose proof (isObject_merged m) as Ho0.
  set (fl3 := setIf (setIf (setIf (merged m) _ _) _ _) _ _) in Hr.
  assert (lookupChain k fl3 = lookupChain k (merged m) ∧ isObject fl3) as [E3 Ho3].
  { unfold fl3. split.
    - rewrite !lookupChain_setIf;
        first [done | repeat apply isObject_setIf; done
              | apply Hk'; unfold liftedKeys; set_solver].
    - by repeat apply isObject_setIf. }
  clearbody fl3.
  destruct (if truthy (lifted m _ "fssaiLicense") then _ else _) as [fl4|e] eqn:E4
    in Hr; [|done].
  apply (lookupChain_converted _ _ k) in E4 as [E4 Ho4];
    [|done|done|apply Hk'; unfold liftedKeys; set_solver].
  rewrite bind_Normal in Hr.
  destruct (if truthy (lifted m _ "vegetarian") then _ else _) as [fl5|e] eqn:E5
    in Hr; [|done].
  apply (lookupChain_converted _ _ k) in E5 as [E5 Ho5];
    [|done|done|apply Hk'; unfold liftedKeys; set_solver].
  rewrite bind_Normal in Hr. injection Hr as <-. split.
  - rewrite !lookupChain_setIf;
      first [congruence | repeat apply isObject_setIf; done
            | apply Hk'; unfold liftedKeys; set_solver].
  - by repeat apply isObject_setIf.
Qed.

Lemma groups_heading (g : string) (fields : list string) :
  (g, fields) ∈ groups → g ≠ "name" ∧ g ≠ "company".
Proof.
  unfold groups. rewrite !elem_of_cons, elem_of_nil.
  intros H. destruct_or!; simplify_eq; done.
Qed.

(** A field of a group is lifted, if at all, from that group. *)
Lemma groups_lifted (g heading k : string) (fields : list string) :
  (g, fields) ∈ groups → k ∈ fields → (heading, k) ∈ liftedKeys →
  heading = g.
Proof.
  unfold groups, liftedKeys. rewrite !elem_of_cons, !elem_of_nil.
  intros Hg Hk Hl.
  destruct_or!; simplify_eq; rewrite ?elem_of_cons, ?elem_of_nil in Hk;
    destruct_or?; simplify_eq; done.
Qed.

Lemma Get_object r k :
  isObject r → hasProperty r k = false → Get r k = Normal VUndef.
Proof.
  destruct r as [| | | | | |p m]; try done. intros _. unfold hasProperty, Get.
  by destruct (lookupChain k (VObj p m)).
Qed.

Lemma flatten_absent_as_empty (m : gmap string value) g :
  g ≠ "name" → g ≠ "company" → m !! g = None → classifiedFlat m = false →
  flattenNestedData (JObj m) = flattenNestedData (JObj (<[g := JObj ∅]> m)).
Proof.
  intros Hn Hc Hg Hflat.
  rewrite (flatten_grouped _ Hflat),
    (flatten_grouped _ (classifiedFlat_insert_empty _ _ Hn Hc Hflat)).
  apply flattenGrouped_ext.
  - symmetry. by apply merged_insert_empty.
  - intros heading key _. symmetry. by apply lifted_insert_empty.
Qed.

(** C6, as amended.  In a grouped object that lacks one of the six
    groups, the missing group is skipped: the outcome is the one for the
    same object with that group present and empty, so its absence raises
    nothing; [flattenNestedData] returns whenever the two regulatory
    values can be converted; and in the result every field of the
    missing group that the two merged groups do not supply is
    [undefined]. *)
Theorem flatten_skips_absent_group (m : gmap string value) g fields :
  (g, fields) ∈ groups →
  m !! g = None →
  classifiedFlat m = false →
  regulatoryConvertible m = true →
  flattenNestedData (JObj m) = flattenNestedData (JObj (<[g := JObj ∅]> m))
  ∧ ∃ r, flattenNestedData (JObj m) = Normal r
         ∧ ∀ k, k ∈ fields → hasProperty (merged m) k = false →
                Get r k = Normal VUndef.
Proof.
  intros Hin Hg Hflat Hconv.
  destruct (groups_heading _ _ Hin) as [Hn Hc].
  split; [by apply flatten_absent_as_empty|].
  rewrite (flatten_grouped _ Hflat).
  destruct (flattenGrouped_Normal _ Hconv) as (p & props & Hr).
  exists (VObj p props). split; [done|]. intros k Hk Hm.
  destruct (flattenGrouped_lookup m _ k Hr) as [Hl Ho].
  { intros heading Hh. rewrite (groups_lifted _ _ _ _ Hin Hk Hh).
    apply lifted_falsy_group. by rewrite (prop_None _ _ Hg). }
  apply Get_object; [done|]. unfold hasProperty in *. by rewrite Hl.
Qed.

Lemma flatten_skips_absent_group_witness :
  noContactGroup !! "Contact Information" = None
  ∧ ∃ r, flattenNestedData (JObj noContactGroup) = Normal r
         ∧ Get r "consumerContact" = Normal VUndef.
Proof.
  split; [reflexivity|].
  destruct (flatten_skips_absent_group noContactGroup
              "Contact Information" ["consumerContact"])
    as (_ & r & Hr & Hfields);
    [ unfold groups; rewrite !elem_of_cons; do 4 right; left; reflexivity
    | reflexivity | reflexivity | reflexivity | ].
  exists r. split; [exact Hr|].
  apply Hfields; [left | reflexivity].
Defined.

(** C6, as stated, fails: a field of the missing group is not
    [undefined] when a merged group supplies it. *)
Lemma absent_group_field_supplied :
  contactUnderBasic !! "Contact Information" = None
  ∧ classifiedFlat contactUnderBasic = false
  ∧ ∃ r, flattenNestedData (JObj contactUnderBasic) = Normal r
         ∧ Get r "consumerContact" = Normal (JObj {[ "phone" := VStr "1800" ]})
         ∧ Get r "consumerContact" ≠ Normal VUndef.
Proof.
  split; [reflexivity|]. split; [reflexivity|].
  exists (JObj {[ "name" := VStr "Tea";
                  "consumerContact" := JObj {[ "phone" := VStr "1800" ]} ]}).
  split; [vm_compute; reflexivity|]. split; [vm_compute; reflexivity|].
  vm_compute. discriminate.
Qed.

(** ** The record validator *)

Lemma bind_Normal_inv {A B} (c : completion A) (f : A → completion B) b :
  (c ≫= f) = Normal b → ∃ a, c = Normal a ∧ f a = Normal b.
Proof. destruct c as [a|e]; [eauto | done]. Qed.

Lemma Get_not_nullish (v : value) (k : string) :
  isNullish v = false → Get v k = Normal (getOr v k).
Proof. unfold getOr. by destruct v. Qed.

Lemma Get_nullish (v : value) (k : string) :
  isNullish v = true → ∃ e, Get v k = Throw e.
Proof. destruct v; try done; simpl; eauto. Qed.

(** The fields that the object literal of lines 234-254 evaluates. *)
Lemma mapM_fields (flat : value) (entries : list (string * (value → value))) :
  isNullish flat = false →
  mapM (λ '(key, f), v ← Get flat key; mret (key, f v)) entries
    = Normal ((λ '(key, f), (key, f (getOr flat key))) <$> entries).
Proof.
  intros Hflat. induction entries as [|[key f] entries IH]; [done|].
  cbn [mapM]. rewrite IH, (Get_not_nullish _ _ Hflat). done.
Qed.

Lemma bestEffortRecord_Normal (flat : value) :
  isNullish flat = false →
  bestEffortRecord flat = Normal (JObj (bestEffortFields flat)).
Proof.
  intros Hflat. unfold bestEffortRecord. by rewrite (mapM_fields _ _ Hflat).
Qed.

Lemma bestEffortRecord_Throw (flat : value) :
  isNullish flat = true → ∃ e, bestEffortRecord flat = Throw e.
Proof.
  intros Hflat. unfold bestEffortRecord. cbn [mapM].
  destruct (Get_nullish flat "name" Hflat) as [e ->]. eauto.
Qed.

Lemma dom_bestEffortFields (flat : value) :
  dom (bestEffortFields flat) = list_to_set canonicalFields.
Proof. unfold bestEffortFields. rewrite dom_list_to_map_L. done. Qed.

(** A field of the extracted record is the property of the flat object,
    with [null] replaced by [undefined] except for the two nested
    records. *)
Lemma bestEffortFields_lookup (flat : value) (k : string) :
  k ∈ canonicalFields →
  bestEffortFields flat !! k
    = Some (if bool_decide (k = "nutritionalInfo" ∨ k = "consumerContact")
            then getOr flat k else coalesceUndefined (getOr flat k)).
Proof.
  unfold canonicalFields. rewrite !elem_of_cons, elem_of_nil.
  intros H. destruct_or!; subst; try done; vm_compute; reflexivity.
Qed.

(** *** Extraction field by field *)

(** What the field by field extraction does.  When strict validation of
    a flat value fails, the validator still returns a record, and the
    record has exactly the canonical fields.  No type is checked: a
    field whose property in the flat value is not [null] carries that
    property unchanged, whatever its type ([undefined] when the key is
    missing); a [null] becomes [undefined] for every field other than
    `nutritionalInfo` and `consumerContact`. *)
Lemma fallback_copies_fields (flat : value) :
  isNullish flat = false →
  ProductSchema flat = None →
  ∃ record,
    validateRecord flat = Normal (JObj record)
    ∧ dom record = list_to_set canonicalFields
    ∧ ∀ k v, k ∈ canonicalFields → Get flat k = Normal v →
        (v ≠ VNull → record !! k = Some v)
        ∧ (v = VNull → k ≠ "nutritionalInfo" → k ≠ "consumerContact" →
           record !! k = Some VUndef).
Proof.
  intros Hflat Hfail. exists (bestEffortFields flat).
  unfold validateRecord. rewrite Hfail.
  split; [by apply bestEffortRecord_Normal|].
  split; [apply dom_bestEffortFields|].
  intros k v Hk. rewrite (Get_not_nullish _ _ Hflat). intros [= <-].
  rewrite (bestEffortFields_lookup _ _ Hk). split.
  - intros Hnull. case_bool_decide; [done|]. by destruct (getOr flat k).
  - intros -> Hn Hc. rewrite bool_decide_eq_false_2; [done|]. by intros [?|?].
Qed.

(** C2.  The code breaks the claim.  On the answer
    [{ name: 'Choco Bar', ingredients: 'Cocoa, Sugar' }] strict
    validation fails, and the field by field extraction returns the
    string under `ingredients` as it is: the field is not [undefined],
    and it is not an array of strings either, which is what the cast of
    line 238 ([as string[] | undefined]) and the declared result
    [Promise<ProductData>] say.  The record returned does not pass the
    schema, and [parseProductText] is fulfilled with it. *)
Theorem fallback_keeps_malformed_ingredients :
  ProductSchema (JObj stringIngredients) = None
  ∧ ∃ record,
      validateRecord (JObj stringIngredients) = Normal record
      ∧ Get record "ingredients" = Normal (VStr "Cocoa, Sugar")
      ∧ Get record "ingredients" ≠ Normal VUndef
      ∧ optionalStrings (VStr "Cocoa, Sugar") = false
      ∧ ProductSchema record = None
      ∧ parseProductText (gatewayReplies (VStr "{...}"))
          (yields (JObj stringIngredients)) "CHOCO BAR" (Some "sk-test") []
        = (Normal record, [textRequest "CHOCO BAR"]).
Proof.
  split; [vm_compute; reflexivity|].
  exists (JObj (bestEffortFields (JObj stringIngredients))).
  split; [vm_compute; reflexivity|]. split; [vm_compute; reflexivity|].
  split; [vm_compute; discriminate|]. split; [reflexivity|].
  split; vm_compute; reflexivity.
Qed.

(** *** The keys of a validated record *)

Lemma objectField_keys (input : value) (entry : string * Schema) fields :
  objectField input entry = Some fields →
  ∀ k, k ∈ fields.*1 → k = entry.1.
Proof.
  destruct entry as [key schema]. unfold objectField.
  destruct (schema _) as [out|]; [|done]. simpl. intros [= <-] k.
  case_match; simpl; [by intros ?%elem_of_nil|].
  by intros ->%list_elem_of_singleton.
Qed.

Lemma z_object_keys (shape : list (string * Schema)) (input data : value) :
  z_object shape input = Some data →
  ∃ props, data = JObj props ∧ dom props ⊆ list_to_set shape.*1.
Proof.
  unfold z_object. destruct input; try done.
  destruct (mapM _ shape) as [fields|] eqn:Hm; [|done]. simpl. intros [= <-].
  eexists; split; [done|]. rewrite dom_list_to_map_L.
  apply mapM_Some in Hm. clear -Hm.
  induction Hm as [|entry fld shape fields Hf _ IH]; [done|].
  cbn [concat]. rewrite fmap_app, list_to_set_app_L, fmap_cons, list_to_set_cons.
  pose proof (objectField_keys _ _ _ Hf) as Hk.
  intros k [Hin|Hin]%elem_of_union; apply elem_of_union.
  - left. apply elem_of_list_to_set in Hin. rewrite (Hk _ Hin).
    by apply elem_of_singleton.
  - right. by apply IH.
Qed.

Lemma ProductSchema_keys (flattened data : value) :
  ProductSchema flattened = Some data →
  ∃ props, data = JObj props ∧ dom props ⊆ list_to_set canonicalFields.
Proof. intros H. apply z_object_keys in H. exact H. Qed.

Lemma validateRecord_keys (flattened record : value) :
  validateRecord flattened = Normal record →
  ∃ props, record = JObj props ∧ dom props ⊆ list_to_set canonicalFields.
Proof.
  unfold validateRecord. destruct (ProductSchema flattened) as [data|] eqn:Hs.
  - intros [= <-]. by eapply ProductSchema_keys.
  - destruct (isNullish flattened) eqn:Hn.
    + destruct (bestEffortRecord_Throw _ Hn) as [e ->]. done.
    + rewrite (bestEffortRecord_Normal _ Hn). intros [= <-].
      eexists; split; [done|]. by rewrite dom_bestEffortFields.
Qed.

Lemma dom_emptyProduct :
  ∃ props, emptyProduct = JObj props
           ∧ dom props = list_to_set canonicalFields
           ∧ ∀ k, k ∈ canonicalFields → props !! k = Some VUndef.
Proof.
  eexists; split; [done|]. split.
  - rewrite dom_list_to_map_L. done.
  - unfold canonicalFields. intros k. rewrite !elem_of_cons, elem_of_nil.
    intros H. destruct_or!; subst; try done; vm_compute; reflexivity.
Qed.

(** ** The entry points *)

Section EntryPoints.

Context (create : string → ChatRequest → completion value).
Context (JSON_parse : string → completion value).

Lemma readProduct_keys (response record : value) :
  readProduct JSON_parse response = Normal record →
  ∃ props, record = JObj props ∧ dom props ⊆ list_to_set canonicalFields.
Proof.
  unfold readProduct. intros (content & _ & H)%bind_Normal_inv.
  destruct (negb (truthy content)); [done|].
  apply bind_Normal_inv in H as (text & _ & H).
  apply bind_Normal_inv in H as (parsed & _ & H).
  apply bind_Normal_inv in H as (flattened & _ & H).
  by eapply validateRecord_keys.
Qed.

(** What the [try] and [catch] blocks of the two entry points return. *)
Lemma guarded_returns (body : completion value) :
  ∃ record props,
    tryCatch (response ← body; readProduct JSON_parse response)
             (λ error, mret emptyProduct) = Normal record
    ∧ record = JObj props
    ∧ dom props ⊆ list_to_set canonicalFields.
Proof.
  destruct (response ← body; readProduct JSON_parse response)
    as [record|e] eqn:Hbody; simpl.
  - apply bind_Normal_inv in Hbody as (response & _ & Hr).
    destruct (readProduct_keys _ _ Hr) as (props & -> & Hd). eauto.
  - destruct dom_emptyProduct as (props & Hp & Hd & _).
    exists emptyProduct, props. by rewrite Hd.
Qed.

Lemma guarded_catches (body : completion value) e :
  (response ← body; readProduct JSON_parse response) = Throw e →
  tryCatch (response ← body; readProduct JSON_parse response)
           (λ error, mret emptyProduct) = Normal emptyProduct.
Proof. by intros ->. Qed.

(** The failures of the stages, as failures of the [try] block. *)
Lemma gateway_failure (body : completion value) e :
  body = Throw e →
  (response ← body; readProduct JSON_parse response) = Throw e.
Proof. by intros ->. Qed.

Lemma decoding_failure (body : completion value) response content text e :
  body = Normal response →
  responseContent response = Normal content →
  truthy content = true →
  ToString content = Normal text →
  JSON_parse text = Throw e →
  (response ← body; readProduct JSON_parse response) = Throw e.
Proof.
  intros -> Hc Ht Hs Hp. rewrite bind_Normal. unfold readProduct.
  by rewrite Hc, bind_Normal, Ht, Hs, bind_Normal, Hp.
Qed.

Lemma flattening_failure (body : completion value)
    response content text parsed e :
  body = Normal response →
  responseContent response = Normal content →
  truthy content = true →
  ToString content = Normal text →
  JSON_parse text = Normal parsed →
  flattenNestedData parsed = Throw e →
  (response ← body; readProduct JSON_parse response) = Throw e.
Proof.
  intros -> Hc Ht Hs Hp Hf. rewrite bind_Normal. unfold readProduct.
  by rewrite Hc, bind_Normal, Ht, Hs, bind_Normal, Hp, bind_Normal, Hf.
Qed.

(** C1.  With a key, when the gateway call throws, or [JSON.parse]
    throws on the content, or [flattenNestedData] throws on the parsed
    value, or any other statement of the [try] block throws,
    [parseProductText] does not throw: it returns the record of which
    each of the nineteen canonical fields is [undefined]. *)
Theorem parseProductText_failure_gives_empty_record
    (ocrText : string) (apiKey : option string) (log : list ChatRequest) :
  let key := default "" apiKey in
  let request := textRequest ocrText in
  keyMissing apiKey = false →
  (∃ e, create key request = Throw e)
  ∨ (∃ response content text e,
       create key request = Normal response
       ∧ responseContent response = Normal content
       ∧ truthy content = true
       ∧ ToString content = Normal text
       ∧ JSON_parse text = Throw e)
  ∨ (∃ response content text parsed e,
       create key request = Normal response
       ∧ responseContent response = Normal content
       ∧ truthy content = true
       ∧ ToString content = Normal text
       ∧ JSON_parse text = Normal parsed
       ∧ flattenNestedData parsed = Throw e)
  ∨ (∃ e, (response ← create key request; readProduct JSON_parse response)
          = Throw e) →
  parseProductText create JSON_parse ocrText apiKey log
    = (Normal emptyProduct, (log ++ [request])%list)
  ∧ ∃ props, emptyProduct = JObj props
             ∧ dom props = list_to_set canonicalFields
             ∧ ∀ k, k ∈ canonicalFields → props !! k = Some VUndef.
Proof.
  intros key request Hkey Hstage. split; [|apply dom_emptyProduct].
  unfold parseProductText. rewrite Hkey. fold key request.
  assert (∃ e, (response ← create key request;
                readProduct JSON_parse response) = Throw e) as [e He].
  { destruct Hstage as [[e He]| [(r & c & t & e & H)| [(r & c & t & p & e & H)| H]]].
    - exists e. by apply gateway_failure.
    - exists e. destruct H as (?&?&?&?&?). by eapply decoding_failure.
    - exists e. destruct H as (?&?&?&?&?&?). by eapply flattening_failure.
    - done. }
  by rewrite (guarded_catches _ _ He).
Qed.

(** C5.  Without a key ([undefined] or the empty string) the two entry
    points throw the configuration error and send no request: the log of
    the gateway is unchanged. *)
Theorem missing_key_throws_before_gateway
    (apiKey : option string) (log : list ChatRequest) :
  apiKey = None ∨ apiKey = Some "" →
  (∀ ocrText,
     parseProductText create JSON_parse ocrText apiKey log
       = (Throw (Error "OpenRouter API key is required"), log))
  ∧ (∀ imageBase64 mimeType,
       parseProductImage create JSON_parse imageBase64 mimeType apiKey log
         = (Throw (Error "OpenRouter API key is required"), log)).
Proof. intros [->| ->]; split; done. Qed.

(** C9.  With a key, each entry point returns a record, by the strict
    validation, by the field by field extraction or by the [catch] block,
    and every key of the record is a canonical field name. *)
Theorem parsed_record_has_canonical_keys
    (apiKey : option string) (log : list ChatRequest) :
  keyMissing apiKey = false →
  (∀ ocrText, ∃ record props,
     parseProductText create JSON_parse ocrText apiKey log
       = (Normal record, (log ++ [textRequest ocrText])%list)
     ∧ record = JObj props
     ∧ dom props ⊆ list_to_set canonicalFields)
  ∧ (∀ imageBase64 mimeType, ∃ record props,
       parseProductImage create JSON_parse imageBase64 mimeType apiKey log
         = (Normal record, (log ++ [imageRequest imageBase64 mimeType])%list)
       ∧ record = JObj props
       ∧ dom props ⊆ list_to_set canonicalFields).
Proof.
  intros Hkey. split.
  - intros ocrText. unfold parseProductText. rewrite Hkey.
    destruct (guarded_returns (create (default "" apiKey) (textRequest ocrText)))
      as (record & props & -> & -> & Hd). eauto.
  - intros imageBase64 mimeType. unfold parseProductImage. rewrite Hkey.
    destruct (guarded_returns
                (create (default "" apiKey) (imageRequest imageBase64 mimeType)))
      as (record & props & -> & -> & Hd). eauto.
Qed.

End EntryPoints.

Lemma parseProductText_failure_gives_empty_record_witness :
  keyMissing (Some "sk-test") = false
  ∧ parseProductText (gatewayFails 503) rejects "TEA 50g" (Some "sk-test") []
    = (Normal emptyProduct, [textRequest "TEA 50g"]).
Proof.
  split; [reflexivity|].
  apply (parseProductText_failure_gives_empty_record
           (gatewayFails 503) rejects "TEA 50g" (Some "sk-test") []);
    [reflexivity|].
  left. eexists. reflexivity.
Defined.

(** The other stages at work: an answer that is not JSON, an answer
    whose flattening throws, an answer without content. *)
Example parseProductText_undecodable :
  parseProductText (gatewayReplies (VStr "Sorry, no label found."))
    rejects "TEA 50g" (Some "sk-test") []
  = (Normal emptyProduct, [textRequest "TEA 50g"]).
Proof. vm_compute. reflexivity. Qed.

Example parseProductText_unflattenable :
  parseProductText (gatewayReplies (VStr "{...}")) (yields hiddenToString)
    "TEA 50g" (Some "sk-test") []
  = (Normal emptyProduct, [textRequest "TEA 50g"]).
Proof. vm_compute. reflexivity. Qed.

Example parseProductText_null_answer :
  parseProductText (gatewayReplies (VStr "null")) (yields VNull)
    "TEA 50g" (Some "sk-test") []
  = (Normal emptyProduct, [textRequest "TEA 50g"]).
Proof. vm_compute. reflexivity. Qed.

Example parseProductText_no_content :
  parseProductText (gatewayReplies VNull) rejects "TEA 50g" (Some "sk-test") []
  = (Normal emptyProduct, [textRequest "TEA 50g"]).
Proof. vm_compute. reflexivity. Qed.

Lemma missing_key_throws_before_gateway_witness :
  (∀ ocrText,
     parseProductText (gatewayReplies (VStr "{}")) (yields (JObj ∅))
       ocrText (Some "") []
     = (Throw (Error "OpenRouter API key is required"), []))
  ∧ (∀ imageBase64 mimeType,
       parseProductImage (gatewayReplies (VStr "{}")) (yields (JObj ∅))
         imageBase64 mimeType (Some "") []
       = (Throw (Error "OpenRouter API key is required"), [])).
Proof.
  apply (missing_key_throws_before_gateway
           (gatewayReplies (VStr "{}")) (yields (JObj ∅)) (Some "") []).
  right. reflexivity.
Defined.

Lemma parsed_record_has_canonical_keys_witness :
  keyMissing (Some "sk-test") = false
  ∧ ∃ record props,
      parseProductText (gatewayReplies (VStr "{...}"))
        (yields (JObj {[ "name" := VStr "Tea"; "rating" := VNum "5" ]}))
        "TEA 50g" (Some "sk-test") []
      = (Normal record, [textRequest "TEA 50g"])
      ∧ record = JObj props
      ∧ dom props ⊆ list_to_set canonicalFields.
Proof.
  split; [reflexivity|].
  apply (parsed_record_has_canonical_keys (gatewayReplies (VStr "{...}"))
           (yields (JObj {[ "name" := VStr "Tea"; "rating" := VNum "5" ]}))
           (Some "sk-test") []).
  reflexivity.
Defined.

(** The two end-to-end scenarios of the specification: a flat answer is
    validated as it is, a grouped answer is flattened first. *)
Example flat_answer_validated :
  parseProductText (gatewayReplies (VStr "{...}")) (yields (JObj chocoBar))
    "CHOCO BAR" (Some "sk-test") []
  = (Normal (JObj chocoBar), [textRequest "CHOCO BAR"]).
Proof. vm_compute. reflexivity. Qed.

Example grouped_answer_flattened :
  parseProductText (gatewayReplies (VStr "{...}")) (yields (JObj noContactGroup))
    "TEA 50g" (Some "sk-test") []
  = (Normal (JObj {[ "name" := VStr "Tea";
                     "expiryDate" := VStr "2025-12-01" ]}),
     [textRequest "TEA 50g"]).
Proof. vm_compute. reflexivity. Qed.

(** A key `__proto__` of `otherDetails` is stepped over by the strict
    validation, whatever it holds. *)
Example record_steps_over_proto :
  ProductSchema
    (JObj {[ "otherDetails" :=
               JObj {[ "__proto__" := VNum "5"; "grade" := VStr "A" ]} ]})
  = Some (JObj {[ "otherDetails" := JObj {[ "grade" := VStr "A" ]} ]}).
Proof. vm_compute. reflexivity. Qed.

(** A key of the answer that is not a canonical field is dropped by the
    strict validation and by the field by field extraction. *)
Example unknown_key_stripped :
  parseProductText (gatewayReplies (VStr "{...}"))
    (yields (JObj {[ "name" := VStr "Tea"; "rating" := VNum "5" ]}))
    "TEA 50g" (Some "sk-test") []
  = (Normal (JObj {[ "name" := VStr "Tea" ]}), [textRequest "TEA 50g"]).
Proof. vm_compute. reflexivity. Qed.

Example unknown_key_not_extracted :
  (record ← validateRecord
              (JObj {[ "name" := VNum "7"; "rating" := VNum "5" ]});
   Get record "rating") = Normal VUndef
  ∧ (record ← validateRecord
                (JObj {[ "name" := VNum "7"; "rating" := VNum "5" ]});
     Get record "name") = Normal (VNum "7").
Proof. split; vm_compute; reflexivity. Qed.

(** ** The scan endpoint *)

Lemma substring_prefix (n : nat) (s : string) :
  ∃ rest, s = String.substring 0 n s ++ rest.
Proof.
  revert s. induction n as [|n IH]; intros s.
  - exists s. by destruct s.
  - destruct s as [|a s]; [by exists ""|].
    destruct (IH s) as [rest Hrest]. exists rest. simpl.
    rewrite Hrest at 1. reflexivity.
Qed.

Lemma substring_short (n : nat) (s : string) :
  (String.length s ≤ n)%nat → String.substring 0 n s = s.
Proof.
  revert s. induction n as [|n IH]; intros [|a s]; simpl; try done; [lia|].
  intros H. rewrite IH; [done | lia].
Qed.

Lemma textFallback_rawText (ocrText : string) (apiError : JsError) :
  data (textFallback ocrText apiError) = rawData ocrText.
Proof. unfold textFallback. by repeat case_match. Qed.

(** The four responses of the [catch] block. *)
Lemma textFallback_cases (ocrText : string) (apiError : JsError) :
  (code (textFallback ocrText apiError), message (textFallback ocrText apiError))
  ∈ [ (Some "model_not_found",
       Some "Gemini API model not found. The model name may be incorrect. Showing raw OCR text. Please check the model configuration.");
      (Some "auth_failed",
       Some "Gemini API authentication failed. The API key may be invalid or expired. Showing raw OCR text. Please verify your API key at https://makersuite.google.com/app/apikey");
      (Some "quota_exceeded",
       Some "Gemini API quota exceeded. Showing raw OCR text. Please check your billing or try again later.");
      (Some "parsing_failed",
       Some "AI parsing failed. Showing raw OCR text.") ].
Proof.
  unfold textFallback. repeat case_match; simpl; rewrite !elem_of_cons; auto 6.
Qed.

(** The [catch] block of the OCR-text branch, as a function of the
    caught error: `rawText` is the first 1000 characters of the text
    submitted, a prefix of it, and the whole text when it has at most
    1000 characters.  The message depends on the kind of failure only,
    and two kinds of failure (two codes) never share a message. *)
Lemma fallback_returns_truncated_text
    (ocrText : string) (apiError : JsError) :
  Get (data (textFallback ocrText apiError)) "rawText"
    = Normal (VStr (String.substring 0 1000 ocrText))
  ∧ (∃ rest, ocrText = String.substring 0 1000 ocrText ++ rest)
  ∧ ((String.length ocrText ≤ 1000)%nat →
     Get (data (textFallback ocrText apiError)) "rawText"
       = Normal (VStr ocrText))
  ∧ (∀ ocrText' apiError',
       message (textFallback ocrText apiError)
         = message (textFallback ocrText' apiError')
       ↔ code (textFallback ocrText apiError)
         = code (textFallback ocrText' apiError')).
Proof.
  rewrite textFallback_rawText.
  assert (Get (rawData ocrText) "rawText"
          = Normal (VStr (String.substring 0 1000 ocrText))) as Hraw.
  { unfold rawData. generalize (String.substring 0 1000 ocrText). intros s.
    vm_compute. reflexivity. }
  split; [done|]. split; [apply substring_prefix|]. split.
  - intros Hlen. by rewrite Hraw, substring_short.
  - intros ocrText' apiError'.
    pose proof (textFallback_cases ocrText apiError) as H1.
    pose proof (textFallback_cases ocrText' apiError') as H2.
    rewrite !elem_of_cons, elem_of_nil in H1, H2.
    destruct_or!; try done;
      injection H1 as -> ->; injection H2 as -> ->; split; done.
Qed.

Section Endpoint.

Context (create : string → ChatRequest → completion value).
Context (JSON_parse : string → completion value).

(** With a key, the OCR-text branch answers with what
    [parseProductText] returns, and [parseProductText] returns also when
    a stage of it fails: the [catch] block of the branch is not reached
    by a failure of the gateway, of the decoding or of the flattening. *)
Lemma POST_ocrText_with_key (text : string) (apiKey : option string)
    (log : list ChatRequest) :
  text ≠ "" → 0 < String.length (trim text) → keyMissing apiKey = false →
  ∃ record,
    parseProductText create JSON_parse text apiKey log
      = (Normal record, (log ++ [textRequest text])%list)
    ∧ POST_ocrText create JSON_parse (Some (TextEntry text)) apiKey log
      = (Normal (Some {| success := true; data := record;
                         message := None; code := None |}),
         (log ++ [textRequest text])%list).
Proof.
  intros Hne Htrim Hkey.
  assert (∃ record, parseProductText create JSON_parse text apiKey log
                    = (Normal record, (log ++ [textRequest text])%list))
    as [record Hp].
  { unfold parseProductText. rewrite Hkey.
    destruct (guarded_returns JSON_parse
                (create (default "" apiKey) (textRequest text)))
      as (record & props & -> & _). eauto. }
  exists record. split; [done|]. unfold POST_ocrText.
  rewrite bool_decide_eq_false_2, bool_decide_eq_true_2 by done.
  simpl. by rewrite Hkey, Hp.
Qed.

(** Without a key the branch answers with the truncated text too. *)
Lemma POST_ocrText_without_key (text : string) (apiKey : option string)
    (log : list ChatRequest) :
  text ≠ "" → 0 < String.length (trim text) → keyMissing apiKey = true →
  POST_ocrText create JSON_parse (Some (TextEntry text)) apiKey log
    = (Normal (Some {| success := true; data := rawData text;
                       message := Some "Gemini API key not configured. Add GEMINI_API_KEY for AI parsing.";
                       code := None |}),
       log).
Proof.
  intros Hne Htrim Hkey. unfold POST_ocrText.
  rewrite bool_decide_eq_false_2, bool_decide_eq_true_2 by done.
  simpl. by rewrite Hkey.
Qed.

(** C8.  The code breaks the claim.  With a key, when the AI parsing
    fails (the [try] block of [parseProductText] throws: the gateway
    rejects the call, the answer cannot be decoded or flattened), the
    OCR-text branch does not fall back: it answers with the record of
    which every field is [undefined], without `rawText`, without a
    message and without a code.  [parseProductText] has caught the error
    itself, so the [catch] block of lines 45-108, which the comments of
    the route announce for these failures, is not entered, and the text
    extracted is lost. *)
Theorem parse_failure_skips_fallback (text : string)
    (apiKey : option string) (log : list ChatRequest) (e : JsError) :
  text ≠ "" → 0 < String.length (trim text) → keyMissing apiKey = false →
  (response ← create (default "" apiKey) (textRequest text);
   readProduct JSON_parse response) = Throw e →
  ∃ response,
    (POST_ocrText create JSON_parse (Some (TextEntry text)) apiKey log).1
      = Normal (Some response)
    ∧ data response = emptyProduct
    ∧ Get (data response) "rawText" = Normal VUndef
    ∧ message response = None
    ∧ code response = None
    ∧ response ≠ textFallback text e.
Proof.
  intros Hne Htrim Hkey Hthrow. unfold POST_ocrText.
  rewrite bool_decide_eq_false_2, bool_decide_eq_true_2 by done.
  simpl. rewrite Hkey. unfold parseProductText.
  rewrite Hkey, (guarded_catches _ _ _ Hthrow). simpl.
  eexists. split; [reflexivity|]. simpl.
  repeat apply conj; try reflexivity.
  intros Heq. apply (f_equal message) in Heq. simpl in Heq.
  pose proof (textFallback_cases text e) as Hcases.
  rewrite <- Heq in Hcases.
  rewrite !elem_of_cons, elem_of_nil in Hcases.
  destruct_or!; try done; discriminate.
Qed.

End Endpoint.

(** * Further properties *)

(** ** Values that are not objects *)

Lemma pretty_N_go_head (x : N) (s : string) :
  s = "" ∨ headIsDigit s = true →
  pretty_N_go x s = "" ∨ headIsDigit (pretty_N_go x s) = true.
Proof.
  revert s. induction (N.lt_wf_0 x) as [x _ IH]. intros s Hs.
  destruct (decide (x = 0%N)) as [->|Hx]; [by rewrite pretty_N_go_0|].
  rewrite pretty_N_go_step by lia. apply IH; [apply N.div_lt; lia|].
  right. unfold pretty_N_char. by repeat case_match.
Qed.

Lemma pretty_N_go_nonempty (x : N) (s : string) :
  s ≠ "" → pretty_N_go x s ≠ "".
Proof.
  revert s. induction (N.lt_wf_0 x) as [x _ IH]. intros s Hs.
  destruct (decide (x = 0%N)) as [->|Hx]; [by rewrite pretty_N_go_0|].
  rewrite pretty_N_go_step by lia. apply IH; [apply N.div_lt; lia | done].
Qed.

Lemma pretty_nat_head (i : nat) : headIsDigit (pretty i) = true.
Proof.
  unfold pretty, pretty_nat, pretty, pretty_N. case_decide; [done|].
  rewrite pretty_N_go_step by lia.
  destruct (pretty_N_go_head (N.of_nat i `div` 10)
              (String (pretty_N_char (N.of_nat i `mod` 10)) ""))
    as [Hempty|Hd]; [| |done].
  - right. unfold pretty_N_char. by repeat case_match.
  - by apply pretty_N_go_nonempty in Hempty.
Qed.

(** A name that does not start with a digit is no index. *)
Lemma lookupIndexFrom_name {A} (i : nat) (l : list A) (k : string) :
  headIsDigit k = false → lookupIndexFrom i l k = None.
Proof.
  intros Hk. revert i. induction l as [|x l IH]; intros i; [done|].
  simpl. rewrite bool_decide_eq_false_2; [apply IH|].
  intros <-. by rewrite pretty_nat_head in Hk.
Qed.

Lemma getOr_name (v : value) (k : string) :
  ¬ isObject v → headIsDigit k = false → k ≠ "length" → getOr v k = VUndef.
Proof.
  intros Hv Hk Hlen. unfold getOr. destruct v; try done; simpl.
  - unfold ownOfString. rewrite bool_decide_eq_false_2 by done.
    unfold lookupIndex. by rewrite lookupIndexFrom_name.
  - unfold ownOfArray. rewrite bool_decide_eq_false_2 by done.
    unfold lookupIndex. by rewrite lookupIndexFrom_name.
Qed.

Lemma Get_name (v : value) (k : string) :
  ¬ isObject v → isNullish v = false →
  headIsDigit k = false → k ≠ "length" → Get v k = Normal VUndef.
Proof.
  intros Hv Hn Hk Hlen. by rewrite (Get_not_nullish _ _ Hn), getOr_name.
Qed.

Lemma flatten_non_object_cases (v : value) :
  ¬ isObject v →
  if isNullish v then ∃ e, flattenNestedData v = Throw e
  else flattenNestedData v = Normal v.
Proof.
  intros Hv. destruct (isNullish v) eqn:Hn.
  - unfold flattenNestedData.
    destruct (Get_nullish v "name" Hn) as [e ->]. eauto.
  - unfold flattenNestedData. by rewrite !Get_name.
Qed.

(** X2.  On a value that is not an object, [flattenNestedData] returns
    its argument unchanged when it is a boolean, a number, a string or
    an array, and throws when it is [null] or [undefined]. *)
Theorem flatten_non_object :
  (∀ b : bool, flattenNestedData (VBool b) = Normal (VBool b))
  ∧ (∀ n : string, flattenNestedData (VNum n) = Normal (VNum n))
  ∧ (∀ s : string, flattenNestedData (VStr s) = Normal (VStr s))
  ∧ (∀ l : list value, flattenNestedData (VArr l) = Normal (VArr l))
  ∧ (∃ e, flattenNestedData VNull = Throw e)
  ∧ (∃ e, flattenNestedData VUndef = Throw e).
Proof.
  repeat apply conj.
  - intros b. exact (flatten_non_object_cases (VBool b) (λ H, H)).
  - intros n. exact (flatten_non_object_cases (VNum n) (λ H, H)).
  - intros s. exact (flatten_non_object_cases (VStr s) (λ H, H)).
  - intros l. exact (flatten_non_object_cases (VArr l) (λ H, H)).
  - exact (flatten_non_object_cases VNull (λ H, H)).
  - exact (flatten_non_object_cases VUndef (λ H, H)).
Qed.

(** ** More on the shape normaliser *)

Lemma classifiedFlat_insert_other (m : gmap string value) k x :
  k ∉ [ "name"; "company"; "Basic Information"; "Dates & Batch" ] →
  classifiedFlat (<[k:=x]> m) = classifiedFlat m.
Proof.
  rewrite !not_elem_of_cons. intros (?&?&?&?&_).
  unfold classifiedFlat. by rewrite !prop_insert_ne.
Qed.

Lemma lifted_insert_other (m : gmap string value) k x heading key :
  k ≠ heading → lifted (<[k:=x]> m) heading key = lifted m heading key.
Proof. intros Hk. unfold lifted. by rewrite prop_insert_ne. Qed.

(** X4.  In a grouped object, a top-level key other than `name`,
    `company` and the six headings is ignored: with or without it the
    outcome is the same, so the key is dropped from the result. *)
Theorem flatten_ignores_unknown_key (m : gmap string value) k x :
  classifiedFlat m = false →
  k ∉ [ "name"; "company"; "Basic Information"; "Dates & Batch";
        "Ingredients & Nutrition"; "Manufacturing & Regulatory";
        "Contact Information"; "Other Details" ] →
  flattenNestedData (JObj (<[k:=x]> m)) = flattenNestedData (JObj m).
Proof.
  intros Hflat Hk.
  assert (k ∉ [ "name"; "company"; "Basic Information"; "Dates & Batch" ])
    as Hk4.
  { rewrite !not_elem_of_cons in Hk. rewrite !not_elem_of_cons. tauto. }
  assert (classifiedFlat (<[k:=x]> m) = false) as Hflat'.
  { by rewrite classifiedFlat_insert_other. }
  rewrite (flatten_grouped _ Hflat), (flatten_grouped _ Hflat').
  rewrite !not_elem_of_cons in Hk. destruct Hk as (?&?&?&?&?&?&?&?&_).
  apply flattenGrouped_ext.
  - unfold merged. by rewrite !prop_insert_ne.
  - intros heading key Hin. apply lifted_insert_other. intros ->.
    unfold liftedKeys in Hin. rewrite !elem_of_cons, elem_of_nil in Hin.
    destruct_or!; simplify_eq.
Qed.

Lemma flatten_ignores_unknown_key_witness :
  flattenNestedData (JObj (<["confidence" := VNum "0.9"]> noContactGroup))
    = flattenNestedData (JObj noContactGroup).
Proof.
  apply (flatten_ignores_unknown_key noContactGroup "confidence" (VNum "0.9"));
    [reflexivity|].
  rewrite !not_elem_of_cons. repeat split; try discriminate.
  apply not_elem_of_nil.
Defined.

Lemma lookupChain_SetProperty_eq o k v :
  isObject o → k ≠ "__proto__" → lookupChain k (SetProperty o k v) = Found v.
Proof.
  destruct o as [| | | | | |p m]; try done. intros _ Hp.
  rewrite SetProperty_own by done. simpl. by rewrite lookup_insert_eq.
Qed.

Lemma lookupChain_setIf_ne o k k' x :
  isObject o → k' ≠ "__proto__" → k ≠ k' →
  lookupChain k (setIf o k' x) = lookupChain k o.
Proof. intros. by apply lookupChain_setIf. Qed.

Lemma lookupChain_setIf_eq o k x :
  isObject o → k ≠ "__proto__" → truthy x = true →
  lookupChain k (setIf o k x) = Found x.
Proof.
  intros Ho Hp Hx. unfold setIf. rewrite Hx.
  by apply lookupChain_SetProperty_eq.
Qed.

(** What a conversion step leaves under its key and under the others. *)
Lemma converted_step (conv : value → completion string) o k x r :
  isObject o → k ≠ "__proto__" →
  (if truthy x then text ← conv x; mret (SetProperty o k (VStr text))
   else mret o) = Normal r →
  isObject r
  ∧ (∀ k', k' ≠ k → lookupChain k' r = lookupChain k' o)
  ∧ (truthy x = true →
     ∃ text, conv x = Normal text ∧ lookupChain k r = Found (VStr text)).
Proof.
  intros Ho Hp. destruct (truthy x) eqn:Hx.
  - destruct (conv x) as [text|e] eqn:Hc; [|done]. intros [= <-].
    split; [by apply isObject_SetProperty|]. split.
    + intros k' Hk'. by apply lookupChain_SetProperty_ne.
    + intros _. exists text. split; [done|].
      by apply lookupChain_SetProperty_eq.
  - intros [= <-]. done.
Qed.

Lemma Get_Found r k x :
  isObject r → lookupChain k r = Found x → Get r k = Normal x.
Proof.
  destruct r as [| | | | | |p m]; try done. intros _ H. unfold Get.
  by rewrite H.
Qed.

(** The fields of the result of the grouped branch that come from the
    lifting blocks. *)
Lemma flattenGrouped_lifted (m : gmap string value) r :
  flattenGrouped m = Normal r →
  isObject r
  ∧ (∀ heading k,
       (heading, k) ∈ [ ("Ingredients & Nutrition", "ingredients");
                        ("Ingredients & Nutrition", "nutritionalInfo");
                        ("Manufacturing & Regulatory", "manufacturingAddresses");
                        ("Contact Information", "consumerContact");
                        ("Other Details", "otherDetails") ] →
       truthy (lifted m heading k) = true →
       lookupChain k r = Found (lifted m heading k))
  ∧ (truthy (lifted m "Manufacturing & Regulatory" "fssaiLicense") = true →
     ∃ text,
       joinOrString (lifted m "Manufacturing & Regulatory" "fssaiLicense")
         = Normal text
       ∧ lookupChain "fssaiLicense" r = Found (VStr text))
  ∧ (truthy (lifted m "Manufacturing & Regulatory" "vegetarian") = true →
     ∃ text,
       ToString (lifted m "Manufacturing & Regulatory" "vegetarian")
         = Normal text
       ∧ lookupChain "vegetarian" r = Found (VStr text)).
Proof.
  intros Hr. unfold flattenGrouped in Hr. cbv zeta in Hr.
  pose proof (isObject_merged m) as Ho0.
  set (fl0 := merged m) in *. clearbody fl0.
  set (x1 := lifted m _ "ingredients") in *.
  set (x2 := lifted m _ "nutritionalInfo") in *.
  set (x3 := lifted m _ "manufacturingAddresses") in *.
  set (x4 := lifted m _ "fssaiLicense") in *.
  set (x5 := lifted m _ "vegetarian") in *.
  set (x6 := lifted m _ "consumerContact") in *.
  set (x7 := lifted m _ "otherDetails") in *.
  set (fl1 := setIf fl0 "ingredients" x1) in *.
  set (fl2 := setIf fl1 "nutritionalInfo" x2) in *.
  set (fl3 := setIf fl2 "manufacturingAddresses" x3) in *.
  assert (isObject fl1) as Ho1 by by apply isObject_setIf.
  assert (isObject fl2) as Ho2 by by apply isObject_setIf.
  assert (isObject fl3) as Ho3 by by apply isObject_setIf.
  destruct (if truthy x4 then _ else _) as [fl4|e] eqn:E4 in Hr; [|done].
  apply converted_step in E4 as (Ho4 & N4 & F4); [|done..].
  rewrite bind_Normal in Hr.
  destruct (if truthy x5 then _ else _) as [fl5|e] eqn:E5 in Hr; [|done].
  apply converted_step in E5 as (Ho5 & N5 & F5); [|done..].
  rewrite bind_Normal in Hr. injection Hr as <-.
  assert (isObject (setIf fl5 "consumerContact" x6)) as Ho6
    by by apply isObject_setIf.
  subst fl1 fl2 fl3.
  split; [by apply isObject_setIf|]. split; [|split].
  - intros heading k Hin Ht. rewrite !elem_of_cons, elem_of_nil in Hin.
    destruct_or!; simplify_eq.
    + rewrite !lookupChain_setIf_ne, N5, N4, !lookupChain_setIf_ne by done.
      by apply lookupChain_setIf_eq.
    + rewrite !lookupChain_setIf_ne, N5, N4, !lookupChain_setIf_ne by done.
      by apply lookupChain_setIf_eq.
    + rewrite !lookupChain_setIf_ne, N5, N4 by done.
      by apply lookupChain_setIf_eq.
    + rewrite lookupChain_setIf_ne by done. by apply lookupChain_setIf_eq.
    + by apply lookupChain_setIf_eq.
  - intros Ht. destruct (F4 Ht) as (text & Hc & Hf). exists text.
    split; [done|]. by rewrite !lookupChain_setIf_ne, N5 by done.
  - intros Ht. destruct (F5 Ht) as (text & Hc & Hf). exists text.
    split; [done|]. by rewrite !lookupChain_setIf_ne by done.
Qed.

(** X5.  In the result of the grouped branch a lifted value wins over a
    key of the same name copied from `Basic Information` or
    `Dates & Batch`: each of the five keys lifted as they are reads the
    truthy value found in its own group, and `fssaiLicense` and
    `vegetarian` read the string converted from theirs. *)
Theorem lifted_value_wins (m : gmap string value) r :
  classifiedFlat m = false →
  flattenNestedData (JObj m) = Normal r →
  (∀ heading k,
     (heading, k) ∈ [ ("Ingredients & Nutrition", "ingredients");
                      ("Ingredients & Nutrition", "nutritionalInfo");
                      ("Manufacturing & Regulatory", "manufacturingAddresses");
                      ("Contact Information", "consumerContact");
                      ("Other Details", "otherDetails") ] →
     truthy (lifted m heading k) = true →
     Get r k = Normal (lifted m heading k))
  ∧ (truthy (lifted m "Manufacturing & Regulatory" "fssaiLicense") = true →
     ∃ text,
       joinOrString (lifted m "Manufacturing & Regulatory" "fssaiLicense")
         = Normal text
       ∧ Get r "fssaiLicense" = Normal (VStr text))
  ∧ (truthy (lifted m "Manufacturing & Regulatory" "vegetarian") = true →
     ∃ text,
       ToString (lifted m "Manufacturing & Regulatory" "vegetarian")
         = Normal text
       ∧ Get r "vegetarian" = Normal (VStr text)).
Proof.
  intros Hflat Hr. rewrite (flatten_grouped _ Hflat) in Hr.
  destruct (flattenGrouped_lifted _ _ Hr) as (Ho & H5 & Hf & Hv).
  split; [|split].
  - intros heading k Hin Ht. apply Get_Found; [done|]. by apply H5.
  - intros Ht. destruct (Hf Ht) as (text & Hc & Hl). exists text.
    split; [done|]. by apply Get_Found.
  - intros Ht. destruct (Hv Ht) as (text & Hc & Hl). exists text.
    split; [done|]. by apply Get_Found.
Qed.

Lemma lifted_value_wins_witness :
  ∃ r, flattenNestedData (JObj overlappingGroups) = Normal r
       ∧ Get r "ingredients" = Normal (VArr [VStr "Tea leaves"])
       ∧ ∃ text, Get r "fssaiLicense" = Normal (VStr text).
Proof.
  destruct (flattenNestedData (JObj overlappingGroups)) as [r|e] eqn:Hr;
    [|vm_compute in Hr; discriminate].
  exists r. split; [reflexivity|].
  destruct (lifted_value_wins overlappingGroups r) as (H5 & Hf & _);
    [reflexivity | exact Hr |].
  split.
  - apply (H5 "Ingredients & Nutrition" "ingredients"); [left | reflexivity].
  - destruct Hf as (text & _ & Hg); [reflexivity|]. exists text. exact Hg.
Defined.

(** X6.  An array of strings under `fssaiLicense` in the regulatory
    group becomes, in the result of the grouped branch, the string of
    its elements separated by a comma and a space (the empty string for
    the empty array), provided `vegetarian` can be converted. *)
Theorem license_array_is_joined
    (m regulatory : gmap string value) (licenses : list string) :
  classifiedFlat m = false →
  m !! "Manufacturing & Regulatory" = Some (JObj regulatory) →
  regulatory !! "fssaiLicense" = Some (VArr (VStr <$> licenses)) →
  stringifiable (lifted m "Manufacturing & Regulatory" "vegetarian") = true →
  ∃ r, flattenNestedData (JObj m) = Normal r
       ∧ Get r "fssaiLicense"
         = Normal (VStr (String.concat ", " licenses)).
Proof.
  intros Hflat Hm Hl Hv.
  assert (lifted m "Manufacturing & Regulatory" "fssaiLicense"
          = VArr (VStr <$> licenses)) as Hlift.
  { by apply (lifted_Some _ regulatory). }
  assert (regulatoryConvertible m = true) as Hconv.
  { unfold regulatoryConvertible. rewrite Hlift, Hv, andb_true_r.
    clear. induction licenses as [|s l IH]; [done | exact IH]. }
  rewrite (flatten_grouped _ Hflat).
  destruct (flattenGrouped_Normal _ Hconv) as (p & props & Hr).
  exists (VObj p props). split; [done|].
  destruct (flattenGrouped_lifted _ _ Hr) as (Ho & _ & Hf & _).
  destruct Hf as (text & Hj & Hg); [by rewrite Hlift|].
  rewrite Hlift in Hj. simpl in Hj. rewrite Array_join_strings in Hj.
  injection Hj as <-. by apply Get_Found.
Qed.

Lemma license_array_is_joined_witness :
  ∃ r, flattenNestedData (JObj fullLabel) = Normal r
       ∧ Get r "fssaiLicense" = Normal (VStr "A1234, B5678").
Proof.
  apply (license_array_is_joined fullLabel
           {[ "manufacturingAddresses" := VArr [VStr "Plot 4, Assam"];
              "fssaiLicense" := VArr [VStr "A1234"; VStr "B5678"];
              "vegetarian" := VBool true ]}
           ["A1234"; "B5678"]); reflexivity.
Defined.

(** ** The schema *)

Lemma objectField_inv input key schema fields :
  objectField input (key, schema) = Some fields →
  ∃ out, schema (readKey input key) = Some out
         ∧ fields = (if isUndefined out && negb (hasProperty input key)
                     then [] else [(key, out)]).
Proof.
  unfold objectField. fold (readKey input key).
  destruct (schema _) as [out|]; [|done]. simpl. intros [= <-]. eauto.
Qed.

Lemma fields_keys (input : value) (shape : list (string * Schema))
    (fields : list (list (string * value))) key :
  Forall2 (λ entry fld, objectField input entry = Some fld) shape fields →
  key ∈ (concat fields).*1 → key ∈ shape.*1.
Proof.
  induction 1 as [|[k s] fld shape fields Hf _ IH]; [done|].
  cbn [concat]. rewrite fmap_app, elem_of_app, fmap_cons, elem_of_cons.
  apply objectField_inv in Hf as (out & _ & ->).
  intros [Hin|Hin]; [|right; by apply IH].
  left. case_match; [by apply elem_of_nil in Hin|].
  by apply list_elem_of_singleton in Hin.
Qed.

(** The outputs of the keys of a shape, as the list of fields that
    [z.object] turns into the record. *)
Lemma fields_lookup (input : value) (shape : list (string * Schema))
    (fields : list (list (string * value))) key schema :
  Forall2 (λ entry fld, objectField input entry = Some fld) shape fields →
  NoDup shape.*1 →
  (key, schema) ∈ shape →
  ∃ out, schema (readKey input key) = Some out
         ∧ (list_to_map (concat fields) : gmap string value) !! key
           = (if isUndefined out && negb (hasProperty input key)
              then None else Some out).
Proof.
  induction 1 as [|[k s] fld shape fields Hf Hrest IH];
    [by intros _ ?%elem_of_nil|].
  rewrite fmap_cons, NoDup_cons. intros [Hk Hnd] Hin.
  apply objectField_inv in Hf as (out & Hs & ->).
  cbn [concat]. rewrite list_to_map_app.
  apply elem_of_cons in Hin as [[= -> ->]|Hin].
  - exists out. split; [done|].
    destruct (isUndefined out && negb (hasProperty input k)) eqn:Hc.
    + rewrite list_to_map_nil, (left_id_L ∅ (∪)).
      apply not_elem_of_list_to_map. intros Hin. apply Hk.
      by eapply fields_keys.
    + rewrite list_to_map_cons, list_to_map_nil.
      rewrite lookup_union_l' by (rewrite lookup_insert_eq; eauto).
      by rewrite lookup_insert_eq.
  - destruct (IH Hnd Hin) as (out' & Hs' & Hl). exists out'.
    split; [done|]. rewrite <- Hl.
    assert (key ≠ k) as Hne.
    { intros ->. apply Hk. apply list_elem_of_fmap. by exists (k, schema). }
    rewrite lookup_union_r; [done|].
    destruct (isUndefined out && negb (hasProperty input k));
      [apply lookup_empty|].
    rewrite list_to_map_cons, list_to_map_nil. by rewrite lookup_insert_ne.
Qed.

Lemma z_object_inv (shape : list (string * Schema)) (input data : value) :
  z_object shape input = Some data →
  isObject input
  ∧ ∃ fields,
      Forall2 (λ entry fld, objectField input entry = Some fld) shape fields
      ∧ data = JObj (list_to_map (concat fields)).
Proof.
  unfold z_object. destruct input; try done.
  destruct (mapM _ shape) as [fields|] eqn:Hm; [|done]. simpl. intros [= <-].
  split; [done|]. exists fields. split; [by apply mapM_Some|done].
Qed.

(** The output of [z.object] under a key of its shape: the output of
    the schema of the key. *)
Lemma z_object_field (shape : list (string * Schema)) (input data : value)
    key schema :
  z_object shape input = Some data →
  NoDup shape.*1 →
  (key, schema) ∈ shape →
  ∃ out, schema (readKey input key) = Some out ∧ readKey data key = out.
Proof.
  intros (_ & fields & Hf & ->)%z_object_inv Hnd Hin.
  destruct (fields_lookup _ _ _ _ _ Hf Hnd Hin) as (out & Hs & Hl).
  exists out. split; [done|]. unfold readKey. simpl. rewrite Hl.
  destruct (isUndefined out && negb (hasProperty input key)) eqn:Hc; [|done].
  apply andb_prop in Hc as [Hu _]. by destruct out.
Qed.

Lemma z_object_Forall (shape : list (string * Schema)) (input data : value) :
  z_object shape input = Some data →
  NoDup shape.*1 →
  Forall (λ entry, ∃ out, entry.2 (readKey input entry.1) = Some out
                          ∧ readKey data entry.1 = out) shape.
Proof.
  intros Hz Hnd. apply Forall_forall. intros [key schema] Hin.
  by eapply z_object_field.
Qed.

(** The members of a validated object: its keys are keys of the shape,
    and its values are outputs of their schemas. *)
Lemma z_object_member (shape : list (string * Schema)) (input : value)
    (props : gmap string value) key x :
  z_object shape input = Some (JObj props) →
  NoDup shape.*1 →
  props !! key = Some x →
  ∃ schema, (key, schema) ∈ shape ∧ schema (readKey input key) = Some x.
Proof.
  intros Hz Hnd Hx.
  destruct (z_object_keys _ _ _ Hz) as (props' & [= <-] & Hdom).
  assert (key ∈ shape.*1) as Hk.
  { apply (elem_of_list_to_set (C:=gset string)), Hdom, elem_of_dom. eauto. }
  apply list_elem_of_fmap in Hk as ([key' schema] & Heq & Hin).
  simpl in Heq. subst key'. exists schema. split; [done|].
  destruct (z_object_field _ _ _ _ _ Hz Hnd Hin) as (out & Hs & Hr).
  unfold readKey in Hr. simpl in Hr. rewrite Hx in Hr. by subst.
Qed.

Lemma nullishString_type x out :
  nullishString x = Some out → optionalString out = true.
Proof. destruct x; simpl; intros [= <-]; done. Qed.

Lemma mapM_z_string (l k : list value) :
  mapM z_string l = Some k → k = l ∧ forallb isString l = true.
Proof.
  intros H%mapM_Some. induction H as [|x y l k Hx _ [-> IH]]; [done|].
  destruct x; try done. injection Hx as <-. done.
Qed.

Lemma nullishArray_type x out :
  nullishArray x = Some out → optionalStrings out = true.
Proof.
  destruct x; simpl; try (intros [= <-]; done).
  unfold nullishArray, transform, nullish, z_array. simpl.
  destruct (mapM z_string elems) as [k|] eqn:Hm; [|done].
  apply mapM_z_string in Hm as [-> Hs]. by intros [= <-].
Qed.

Lemma omap_z_string (m : gmap string value) :
  map_Forall (λ _ x, is_Some (z_string x)) m →
  omap z_string m = m ∧ map_Forall (λ _ x, isString x = true) m.
Proof.
  intros Hm. split.
  - apply map_eq. intros k. rewrite lookup_omap.
    destruct (m !! k) as [x|] eqn:Hx; [|done]. simpl.
    destruct (Hm _ _ Hx) as [y Hy]. by destruct x.
  - intros k x Hx. destruct (Hm _ _ Hx) as [y Hy]. by destruct x.
Qed.

Lemma nullishRecord_type x out :
  nullishRecord x = Some out → optionalStringMap out = true.
Proof.
  destruct x; simpl; try (intros [= <-]; done).
  unfold nullishRecord, transform, nullish, z_record. simpl.
  case_bool_decide as Hm; [|done]. simpl. intros [= <-].
  destruct (omap_z_string _ Hm) as [-> Hs]. simpl.
  by apply bool_decide_eq_true.
Qed.

Lemma nested_type (shape : list (string * Schema)) x out :
  NoDup shape.*1 →
  Forall (λ entry, ∀ y o, entry.2 y = Some o → optionalString o = true) shape →
  transform (nullish (z_object shape)) coalesceUndefined x = Some out →
  optionalRecord shape.*1 out = true.
Proof.
  intros Hnd Hall. unfold transform, nullish.
  destruct x as [| |b|n|s|l|p m]; try (simpl; intros [= <-]; done).
  destruct (z_object shape (VObj p m)) as [data|] eqn:Hz; [|done]. simpl.
  intros [= <-].
  destruct (z_object_keys _ _ _ Hz) as (props & -> & Hdom). simpl.
  apply bool_decide_eq_true. intros k y Hy.
  destruct (z_object_member _ _ _ _ _ Hz Hnd Hy) as (schema & Hin & Hs).
  split.
  - apply list_elem_of_fmap. by exists (k, schema).
  - rewrite Forall_forall in Hall. by apply (Hall _ Hin _ _ Hs).
Qed.

Lemma NoDup_canonicalFields : NoDup canonicalFields.
Proof. apply (bool_decide_unpack _). vm_compute. exact I. Qed.

(** X7.  A strictly validated record has the types of [ProductData]:
    read from it, every string field is a string or [undefined], the two
    arrays are arrays of strings or [undefined], the two nested records
    hold only their own keys with strings or [undefined] under them, and
    `otherDetails` maps to strings.  In particular no [null] is left. *)
Theorem validated_record_is_typed (flat data : value) :
  ProductSchema flat = Some data →
  Forall (λ field, ∃ v, Get data field.1 = Normal v ∧ field.2 v = true)
    productTypes.
Proof.
  intros Hz.
  destruct (ProductSchema_keys _ _ Hz) as (props & -> & _).
  pose proof (z_object_Forall _ _ _ Hz NoDup_canonicalFields) as Hall.
  assert (∀ k, Get (JObj props) k = Normal (readKey (JObj props) k)) as Hget.
  { done. }
  repeat (apply Forall_cons in Hall as [(? & ? & ?) Hall]).
  simpl in *.
  repeat (apply Forall_cons; split;
          [ eexists; split; [apply Hget|]; subst;
            first [ by eapply nullishString_type
                  | by eapply nullishArray_type
                  | by eapply nullishRecord_type
                  | eapply (nested_type
                              [ ("energy", nullishString);
                                ("protein", nullishString);
                                ("totalCarbohydrate", nullishString);
                                ("sugars", nullishString);
                                ("totalFat", nullishString);
                                ("saturatedFat", nullishString);
                                ("transFat", nullishString);
                                ("sodium", nullishString);
                                ("servingSize", nullishString) ]);
                    [ apply (bool_decide_unpack _); vm_compute; exact I
                    | repeat constructor; apply nullishString_type
                    | eassumption ]
                  | eapply (nested_type
                              [ ("phone", nullishString);
                                ("email", nullishString);
                                ("address", nullishString);
                                ("website", nullishString) ]);
                    [ apply (bool_decide_unpack _); vm_compute; exact I
                    | repeat constructor; apply nullishString_type
                    | eassumption ] ]
          | ]).
  constructor.
Qed.

Lemma validated_record_is_typed_witness :
  ProductSchema (JObj nullsAndExtras)
    = Some (JObj {[ "name" := VStr "Tea";
                    "mrp" := VUndef;
                    "nutritionalInfo" :=
                      JObj {[ "energy" := VUndef;
                              "protein" := VStr "1 g" ]} ]})
  ∧ Forall (λ field, ∃ v,
              Get (JObj {[ "name" := VStr "Tea";
                           "mrp" := VUndef;
                           "nutritionalInfo" :=
                             JObj {[ "energy" := VUndef;
                                     "protein" := VStr "1 g" ]} ]}) field.1
                = Normal v ∧ field.2 v = true)
      productTypes.
Proof.
  split; [vm_compute; reflexivity|].
  apply (validated_record_is_typed (JObj nullsAndExtras)).
  vm_compute. reflexivity.
Defined.

Lemma objectField_ext (input input' : value) key schema :
  lookupChain key input = lookupChain key input' →
  objectField input (key, schema) = objectField input' (key, schema).
Proof. intros H. unfold objectField, hasProperty. by rewrite H. Qed.

Lemma z_object_ext (shape : list (string * Schema)) (input input' : value) :
  isObject input → isObject input' →
  (∀ key, key ∈ shape.*1 → lookupChain key input = lookupChain key input') →
  z_object shape input = z_object shape input'.
Proof.
  intros Ho Ho' Hk. destruct input, input'; try done. unfold z_object.
  assert (mapM (objectField (VObj proto props)) shape
          = mapM (objectField (VObj proto0 props0)) shape) as ->; [|done].
  induction shape as [|[key schema] shape IH]; [done|].
  cbn [mapM]. rewrite IH.
  - rewrite (objectField_ext _ (VObj proto0 props0)); [done|].
    apply Hk. rewrite fmap_cons. left.
  - intros k Hin. apply Hk. rewrite fmap_cons. by right.
Qed.

(** X8.  Strict validation does not look at a key that is not a
    canonical field: with or without it the outcome is the same, and a
    record that validates does not carry it. *)
Theorem validation_ignores_unknown_key (m : gmap string value) k x :
  k ∉ canonicalFields →
  ProductSchema (JObj (<[k:=x]> m)) = ProductSchema (JObj m).
Proof.
  intros Hk. apply z_object_ext; [done..|].
  intros key Hin. simpl. rewrite lookup_insert_ne; [done|].
  intros ->. by apply Hk.
Qed.

Lemma validation_ignores_unknown_key_witness :
  ProductSchema (JObj (<["rating" := VNum "5"]> chocoBar))
    = ProductSchema (JObj chocoBar).
Proof.
  apply (validation_ignores_unknown_key chocoBar "rating" (VNum "5")).
  unfold canonicalFields. rewrite !not_elem_of_cons.
  repeat split; try discriminate. apply not_elem_of_nil.
Defined.

(** *** Validation is idempotent *)

Lemma z_object_stable (shape : list (string * Schema)) :
  NoDup shape.*1 →
  Forall (λ entry, stable entry.2) shape →
  stable (z_object shape).
Proof.
  intros Hnd Hst input data Hz.
  destruct (z_object_inv _ _ _ Hz) as (Ho & fields & Hf & ->).
  unfold z_object. rewrite (mapM_Some_2 _ _ fields); [done|].
  set (d := JObj (list_to_map (concat fields))).
  assert (∀ key schema fld,
            (key, schema) ∈ shape →
            objectField input (key, schema) = Some fld →
            objectField d (key, schema) = Some fld) as Hstep.
  { intros key schema fld Hin Hfld.
    destruct (fields_lookup _ _ _ _ _ Hf Hnd Hin) as (out & Hs & Hl).
    apply objectField_inv in Hfld as (out' & Hs' & ->).
    rewrite Hs in Hs'. injection Hs' as <-.
    rewrite Forall_forall in Hst. pose proof (Hst _ Hin _ _ Hs) as Hout.
    simpl in Hout.
    destruct (isUndefined out && negb (hasProperty input key)) eqn:Hc;
      unfold objectField, hasProperty, d; simpl; rewrite Hl.
    - apply andb_prop in Hc as [Hu _]. destruct out; try done.
      by rewrite Hout.
    - rewrite Hout. simpl. by rewrite andb_false_r. }
  clear Hz Hnd Hst. revert Hstep. generalize d. clear d.
  induction Hf as [|[key schema] fld shape fields Hfld _ IH]; intros d Hstep;
    constructor.
  - apply Hstep; [left | done].
  - apply IH. intros k s f Hin. apply Hstep. by right.
Qed.

Lemma nullishString_stable : stable nullishString.
Proof. intros x out. by destruct x; intros [= <-]. Qed.

Lemma nullishArray_stable : stable nullishArray.
Proof.
  intros x out. destruct x; try (by intros [= <-]).
  unfold nullishArray, transform, nullish, z_array. simpl.
  destruct (mapM z_string elems) as [k|] eqn:Hm; [|done].
  apply mapM_z_string in Hm as [-> Hs]. intros [= <-]. simpl.
  assert (mapM z_string elems = Some elems) as ->; [|done].
  apply mapM_Some. clear -Hs. induction elems as [|x l IH]; [done|].
  apply andb_prop in Hs as [Hx Hl]. constructor; [by destruct x | by apply IH].
Qed.

Lemma nullishRecord_stable : stable nullishRecord.
Proof.
  intros x out. destruct x; try (by intros [= <-]).
  unfold nullishRecord, transform, nullish, z_record. simpl.
  case_bool_decide as Hm; [|done]. simpl. intros [= <-].
  destruct (omap_z_string _ Hm) as [-> Hs].
  rewrite delete_delete_eq.
  rewrite bool_decide_eq_true_2 by done. simpl.
  by destruct (omap_z_string _ Hm) as [-> _].
Qed.

Lemma nested_stable (shape : list (string * Schema)) :
  NoDup shape.*1 →
  Forall (λ entry, stable entry.2) shape →
  stable (transform (nullish (z_object shape)) coalesceUndefined).
Proof.
  intros Hnd Hst x out. unfold transform, nullish.
  destruct x as [| |b|n|s|l|p m]; try (simpl; intros [= <-]; done).
  destruct (z_object shape (VObj p m)) as [data|] eqn:Hz; [|done]. simpl.
  intros [= <-].
  destruct (z_object_keys _ _ _ Hz) as (props & -> & _).
  change (coalesceUndefined <$> z_object shape (JObj props)
          = Some (JObj props)).
  by rewrite (z_object_stable _ Hnd Hst _ _ Hz).
Qed.

(** X9.  Strict validation is idempotent: a record that it returns
    validates again, to itself. *)
Theorem validation_idempotent (flat data : value) :
  ProductSchema flat = Some data → ProductSchema data = Some data.
Proof.
  apply z_object_stable; [apply NoDup_canonicalFields|].
  repeat (apply Forall_cons; split;
          [ first [ apply nullishString_stable
                  | apply nullishArray_stable
                  | apply nullishRecord_stable
                  | apply nested_stable;
                    [ apply (bool_decide_unpack _); vm_compute; exact I
                    | repeat constructor; apply nullishString_stable ] ]
          | ]).
  constructor.
Qed.

Lemma validation_idempotent_witness :
  ProductSchema (JObj nullsAndExtras)
    = Some (JObj {[ "name" := VStr "Tea";
                    "mrp" := VUndef;
                    "nutritionalInfo" :=
                      JObj {[ "energy" := VUndef;
                              "protein" := VStr "1 g" ]} ]})
  ∧ ProductSchema (JObj {[ "name" := VStr "Tea";
                           "mrp" := VUndef;
                           "nutritionalInfo" :=
                             JObj {[ "energy" := VUndef;
                                     "protein" := VStr "1 g" ]} ]})
    = Some (JObj {[ "name" := VStr "Tea";
                    "mrp" := VUndef;
                    "nutritionalInfo" :=
                      JObj {[ "energy" := VUndef;
                              "protein" := VStr "1 g" ]} ]}).
Proof.
  split; [vm_compute; reflexivity|].
  apply (validation_idempotent (JObj nullsAndExtras)).
  vm_compute. reflexivity.
Defined.

(** *** Values of a wrong type *)

Lemma z_object_fails (shape : list (string * Schema)) (input : value)
    key schema :
  (key, schema) ∈ shape →
  schema (readKey input key) = None →
  z_object shape input = None.
Proof.
  intros Hin Hs. unfold z_object. destruct input; try done.
  rewrite (mapM_None_2 _ shape); [done|].
  apply Exists_exists. exists (key, schema). split; [done|].
  unfold objectField. fold (readKey (VObj proto props) key). by rewrite Hs.
Qed.

(** X10.  A number or a boolean under any canonical field makes the
    strict validation fail; the validator then returns that value
    unchanged in the record it extracts field by field. *)
Theorem number_fails_strict_validation (m : gmap string value) k x :
  k ∈ canonicalFields →
  m !! k = Some x →
  (∃ r, x = VNum r) ∨ (∃ b, x = VBool b) →
  ProductSchema (JObj m) = None
  ∧ ∃ record, validateRecord (JObj m) = Normal (JObj record)
              ∧ record !! k = Some x.
Proof.
  intros Hk Hm Hx.
  assert (ProductSchema (JObj m) = None) as Hfail.
  { unfold canonicalFields in Hk. rewrite !elem_of_cons, elem_of_nil in Hk.
    destruct_or! Hk; try done; subst k;
      (match goal with
       | H : m !! ?key = _ |- _ => eapply (z_object_fails _ _ key)
       end;
       [ repeat first [ apply list_elem_of_here | apply list_elem_of_further ]
       | unfold readKey; simpl; rewrite Hm;
         destruct Hx as [[r ->]|[b ->]]; reflexivity ]). }
  split; [done|]. exists (bestEffortFields (JObj m)).
  unfold validateRecord. rewrite Hfail.
  split; [by apply bestEffortRecord_Normal|].
  rewrite (bestEffortFields_lookup _ _ Hk), getOr_JObj, (prop_Some _ _ _ Hm).
  destruct Hx as [[r ->]|[b ->]]; by case_bool_decide.
Qed.

Lemma number_fails_strict_validation_witness :
  ProductSchema (JObj numericPrice) = None
  ∧ ∃ record, validateRecord (JObj numericPrice) = Normal (JObj record)
              ∧ record !! "mrp" = Some (VNum "50").
Proof.
  apply (number_fails_strict_validation numericPrice "mrp" (VNum "50"));
    [do 6 right; left | reflexivity | left; eexists; reflexivity].
Defined.

(** ** More on the entry points *)

Section MoreEntryPoints.

Context (create : string → ChatRequest → completion value).
Context (JSON_parse : string → completion value).

Lemma readProduct_decoded (key : string) (request : ChatRequest)
    (parsed : value) :
  decodesTo create JSON_parse key request parsed →
  (response ← create key request; readProduct JSON_parse response)
  = (flattened ← flattenNestedData parsed; validateRecord flattened).
Proof.
  intros (response & content & text & Hc & Hr & Ht & Hs & Hp).
  rewrite Hc, bind_Normal. unfold readProduct.
  by rewrite Hr, bind_Normal, Ht, Hs, bind_Normal, Hp, bind_Normal.
Qed.




(** X11.  With a key, when the gateway call throws, or [JSON.parse]
    throws on the content, or [flattenNestedData] throws on the parsed
    value, or any other statement of the [try] block throws,
    [parseProductImage] does not throw: its promise is fulfilled with
    the record of which every field is [undefined], whatever the error
    was (a status 401, 429 or 500 of the gateway included). *)
Theorem parseProductImage_failure_gives_empty_record
    (imageBase64 mimeType : string) (apiKey : option string)
    (log : list ChatRequest) :
  let key := default "" apiKey in
  let request := imageRequest imageBase64 mimeType in
  keyMissing apiKey = false →
  (∃ e, create key request = Throw e)
  ∨ (∃ response content text e,
       create key request = Normal response
       ∧ responseContent response = Normal content
       ∧ truthy content = true
       ∧ ToString content = Normal text
       ∧ JSON_parse text = Throw e)
  ∨ (∃ parsed e,
       decodesTo create JSON_parse key request parsed
       ∧ flattenNestedData parsed = Throw e)
  ∨ (∃ e, (response ← create key request; readProduct JSON_parse response)
          = Throw e) →
  (parseProductImage create JSON_parse imageBase64 mimeType apiKey log).1
    = Normal emptyProduct.
Proof.
  intros key request Hkey Hstage.
  unfold parseProductImage. rewrite Hkey. fold key request.
  assert (∃ e, (response ← create key request;
                readProduct JSON_parse response) = Throw e) as [e He].
  { destruct Hstage as [[e He]| [(r & c & t & e & H)| [(p & e & Hd & Hf)| H]]].
    - exists e. by apply gateway_failure.
    - exists e. destruct H as (?&?&?&?&?). by eapply decoding_failure.
    - exists e. by rewrite (readProduct_decoded _ _ _ Hd), Hf.
    - done. }
  by rewrite (guarded_catches _ _ _ He).
Qed.

End MoreEntryPoints.


Lemma parseProductImage_failure_gives_empty_record_witness :
  (parseProductImage (gatewayFails 429) rejects "UE5H" "image/png"
     (Some "sk-test") []).1
  = Normal emptyProduct.
Proof.
  apply (parseProductImage_failure_gives_empty_record
           (gatewayFails 429) rejects "UE5H" "image/png" (Some "sk-test") []);
    [reflexivity|].
  left. eexists. reflexivity.
Defined.

(** ** More on the scan endpoint *)

Lemma blank_trimStart (s : string) : blank (trimStart s) = blank s.
Proof.
  induction s as [|a s IH]; [done|]. simpl.
  destruct (isWhiteSpace a) eqn:Ha; [done|]. simpl. by rewrite Ha.
Qed.

Lemma trimStart_blank (s : string) : blank s = true → trimStart s = "".
Proof.
  induction s as [|a s IH]; [done|]. simpl.
  intros [-> Hs]%andb_prop. by apply IH.
Qed.

Lemma blank_rev_app (s acc : string) :
  blank (String.rev_app s acc) = blank s && blank acc.
Proof.
  revert acc. induction s as [|a s IH]; intros acc; [done|].
  simpl. rewrite IH. simpl. by destruct (isWhiteSpace a), (blank s).
Qed.

Lemma blank_rev (s : string) : blank (String.rev s) = blank s.
Proof. unfold String.rev. by rewrite blank_rev_app, andb_true_r. Qed.

(** [trim] leaves something exactly when the text is not blank. *)
Lemma trim_length (s : string) :
  0 < String.length (trim s) ↔ blank s = false.
Proof.
  unfold trim. split.
  - intros Hlen. destruct (blank s) eqn:Hb; [|done].
    rewrite (trimStart_blank _ Hb) in Hlen. simpl in Hlen. lia.
  - intros Hb.
    assert (blank (String.rev (trimStart (String.rev (trimStart s)))) = false)
      as Hr.
    { by rewrite blank_rev, blank_trimStart, blank_rev, blank_trimStart. }
    destruct (String.rev _); [done | simpl; lia].
Qed.

Section MoreEndpoint.

Context (create : string → ChatRequest → completion value).
Context (JSON_parse : string → completion value).
Context (fileToBase64 : FormDataEntryValue → completion string).

Lemma POST_ocrText_taken (text : string) (apiKey : option string)
    (log : list ChatRequest) :
  blank text = false →
  ∃ response log',
    POST_ocrText create JSON_parse (Some (TextEntry text)) apiKey log
      = (Normal (Some response), log')
    ∧ success response = true
    ∧ (log' = log ∨ log' = (log ++ [textRequest text])%list).
Proof.
  intros Hb. unfold POST_ocrText.
  rewrite bool_decide_eq_false_2 by (intros ->; done).
  rewrite bool_decide_eq_true_2 by by apply trim_length.
  simpl. destruct (keyMissing apiKey) eqn:Hkey; [eauto 10|].
  unfold parseProductText. rewrite Hkey.
  destruct (guarded_returns JSON_parse
              (create (default "" apiKey) (textRequest text)))
    as (record & props & -> & _). eauto 10.
Qed.

Lemma POST_ocrText_skipped (text : string) (apiKey : option string)
    (log : list ChatRequest) :
  blank text = true →
  POST_ocrText create JSON_parse (Some (TextEntry text)) apiKey log
    = (Normal None, log).
Proof.
  intros Hb. unfold POST_ocrText.
  assert (bool_decide (0 < String.length (trim text)) = false) as ->.
  { apply bool_decide_eq_false_2. rewrite trim_length. by rewrite Hb. }
  by rewrite andb_false_r.
Qed.

Lemma ocr_branch_skipped_log (ocrText : option FormDataEntryValue)
    (apiKey : option string) (log : list ChatRequest) :
  (POST_ocrText create JSON_parse ocrText apiKey log).1 = Normal None →
  POST_ocrText create JSON_parse ocrText apiKey log = (Normal None, log).
Proof.
  destruct ocrText as [[text|file]|]; [|done..].
  destruct (blank text) eqn:Hb.
  - intros _. by apply POST_ocrText_skipped.
  - destruct (POST_ocrText_taken text apiKey log Hb) as (r & l & -> & _).
    done.
Qed.

Lemma ocr_branch_taken_cases (ocrText : option FormDataEntryValue)
    (apiKey : option string) (log : list ChatRequest) :
  (∃ file, ocrText = Some (FileEntry file))
  ∨ ∃ answer, (POST_ocrText create JSON_parse ocrText apiKey log).1
              = Normal answer.
Proof.
  destruct ocrText as [[text|file]|]; [|left; eauto|right; by exists None].
  right. destruct (blank text) eqn:Hb.
  - rewrite (POST_ocrText_skipped _ _ _ Hb). by exists None.
  - destruct (POST_ocrText_taken text apiKey log Hb) as (r & l & -> & _).
    by exists (Some r).
Qed.

(** The part of the handler that follows the OCR-text branch. *)
Lemma image_log (file : option FormDataEntryValue) (apiKey : option string)
    (log : list ChatRequest) :
  ∃ requests,
    (let '(outcome, log') :=
       match file with
       | Some image =>
           if entryTruthy image then
             match imageStrategy create JSON_parse fileToBase64 image apiKey log
             with
             | (Normal (Some response), log'') => (Normal response, log'')
             | (Normal None, log'') => (Normal nothingProvided, log'')
             | (Throw error, log'') => (Throw error, log'')
             end
           else (Normal nothingProvided, log)
       | None => (Normal nothingProvided, log)
       end in
     match outcome with
     | Normal response => (response, log')
     | Throw error => (handlerCatch error, log')
     end).2 = (log ++ requests)%list
    ∧ (length requests ≤ 1)%nat.
Proof.
  assert (∀ r : HttpResponse,
            ∃ requests, (r, log).2 = (log ++ requests)%list
                        ∧ (length requests ≤ 1)%nat) as Hnone.
  { intros r. exists []. simpl. rewrite app_nil_r. split; [done | simpl; lia]. }
  destruct file as [image|]; [|apply Hnone].
  destruct (entryTruthy image); [|apply Hnone].
  unfold imageStrategy.
  destruct (keyMissing apiKey) eqn:Hkey; [apply Hnone|].
  destruct (fileToBase64 image) as [base64|e].
  - unfold parseProductImage. rewrite Hkey.
    destruct (guarded_returns JSON_parse
                (create (default "" apiKey)
                   (imageRequest base64 (mimeTypeOf image))))
      as (record & props & -> & _).
    exists [imageRequest base64 (mimeTypeOf image)].
    split; [by destruct (hasData record) | simpl; lia].
  - destruct (imageCatch e) as [r|e']; apply Hnone.
Qed.

(** X13.  What the OCR-text branch does is decided by the entry
    `ocrText` alone.  The branch is skipped exactly when the entry is
    missing or is a text of white space only (the empty text included);
    it answers exactly when the entry is a text that is not blank; and
    line 27 throws exactly when the entry is a [File].  Texts are the
    ones of code units below 256. *)
Theorem ocr_branch_taken_iff (ocrText : option FormDataEntryValue)
    (apiKey : option string) (log : list ChatRequest) :
  ((POST_ocrText create JSON_parse ocrText apiKey log).1 = Normal None
   ↔ ocrText = None
     ∨ ∃ text, ocrText = Some (TextEntry text) ∧ blank text = true)
  ∧ ((∃ response,
        (POST_ocrText create JSON_parse ocrText apiKey log).1
          = Normal (Some response))
     ↔ ∃ text, ocrText = Some (TextEntry text) ∧ blank text = false)
  ∧ ((∃ e, (POST_ocrText create JSON_parse ocrText apiKey log).1 = Throw e)
     ↔ ∃ file, ocrText = Some (FileEntry file)).
Proof.
  destruct ocrText as [[text|file]|].
  - destruct (blank text) eqn:Hb.
    + rewrite (POST_ocrText_skipped _ _ _ Hb). simpl.
      repeat apply conj.
      * intros _. right. by exists text.
      * done.
      * by intros [r Hr].
      * by intros (t & [= <-] & Ht); rewrite Hb in Ht.
      * by intros [e He].
      * by intros [f Hf].
    + destruct (POST_ocrText_taken text apiKey log Hb) as (r & l & -> & _).
      simpl. repeat apply conj.
      * done.
      * intros [H|(t & [= <-] & Ht)]; [done | by rewrite Hb in Ht].
      * intros _. by exists text.
      * intros _. by exists r.
      * by intros [e He].
      * by intros [f Hf].
  - simpl. repeat apply conj.
    + done.
    + by intros [H|(t & H & _)].
    + by intros [r Hr].
    + by intros (t & H & _).
    + intros _. by exists file.
    + intros _. by eexists.
  - simpl. repeat apply conj.
    + intros _. by left.
    + done.
    + by intros [r Hr].
    + by intros (t & H & _).
    + by intros [e He].
    + by intros [f Hf].
Qed.

(** X14.  When the form carries an OCR text that is not blank, the
    handler answers with status 200 from the OCR-text branch and never
    looks at the image: with any entry `image`, or none, the outcome is
    the same. *)
Theorem text_takes_precedence (text : string)
    (file file' : option FormDataEntryValue)
    (apiKey : option string) (log : list ChatRequest) :
  blank text = false →
  POST create JSON_parse fileToBase64
    (Normal (file, Some (TextEntry text))) apiKey log
    = POST create JSON_parse fileToBase64
        (Normal (file', Some (TextEntry text))) apiKey log
  ∧ status (POST create JSON_parse fileToBase64
              (Normal (file, Some (TextEntry text))) apiKey log).1 = 200%Z.
Proof.
  intros Hb. unfold POST.
  destruct (POST_ocrText_taken text apiKey log Hb) as (r & l & -> & _).
  done.
Qed.

(** X15.  An image without a usable OCR text, with a key: when the
    [try] block of [parseProductImage] throws (the gateway rejects the
    call with whatever status, the answer is not JSON, ...), the handler
    answers with status 400 and the message
    `No image file or OCR text provided`.  The record that
    [parseProductImage] returns has no data, and the [catch] block of
    the image branch is not entered. *)
Theorem image_failure_answers_nothing_provided
    (image : FormDataEntryValue) (ocrText : option FormDataEntryValue)
    (base64 : string) (apiKey : option string) (log : list ChatRequest)
    (e : JsError) :
  keyMissing apiKey = false →
  (POST_ocrText create JSON_parse ocrText apiKey log).1 = Normal None →
  entryTruthy image = true →
  fileToBase64 image = Normal base64 →
  (response ← create (default "" apiKey)
                (imageRequest base64 (mimeTypeOf image));
   readProduct JSON_parse response) = Throw e →
  (POST create JSON_parse fileToBase64
     (Normal (Some image, ocrText)) apiKey log).1
    = {| status := 400;
         body := ErrorBody "No image file or OCR text provided" None false |}.
Proof.
  intros Hkey Hskip Himage H64 Hthrow. unfold POST.
  assert (POST_ocrText create JSON_parse ocrText apiKey log
          = (Normal None, log)) as ->.
  { apply ocr_branch_skipped_log. exact Hskip. }
  rewrite Himage. unfold imageStrategy. rewrite Hkey, H64.
  unfold parseProductImage.
  rewrite Hkey, (guarded_catches _ _ _ Hthrow). done.
Qed.

(** X16.  Without a key the handler sends no request, whatever the
    form holds. *)
Theorem no_key_no_request
    (formData : completion (option FormDataEntryValue
                            * option FormDataEntryValue))
    (apiKey : option string) (log : list ChatRequest) :
  keyMissing apiKey = true →
  (POST create JSON_parse fileToBase64 formData apiKey log).2 = log.
Proof.
  intros Hkey. unfold POST.
  destruct formData as [[file ocrText]|e]; [|done].
  assert (∃ o, POST_ocrText create JSON_parse ocrText apiKey log = (o, log))
    as [o ->].
  { unfold POST_ocrText. destruct ocrText as [[text|f]|]; [|eauto..].
    destruct (_ && _); [|eauto]. rewrite Hkey. eauto. }
  destruct o as [[r|]|e]; [done| |done]. destruct file as [image|]; [|done].
  destruct (entryTruthy image); [|done].
  unfold imageStrategy. by rewrite Hkey.
Qed.

(** X17.  One call of the handler calls [chat.completions.create] at
    most once, and only adds to the log of the calls.  (The log has one
    entry for each call of [create]; what the client does within a call,
    such as sending the request again after a failure, is not in it.) *)
Theorem at_most_one_create_call
    (formData : completion (option FormDataEntryValue
                            * option FormDataEntryValue))
    (apiKey : option string) (log : list ChatRequest) :
  ∃ calls,
    (POST create JSON_parse fileToBase64 formData apiKey log).2
      = (log ++ calls)%list
    ∧ (length calls ≤ 1)%nat.
Proof.
  assert (∀ (alog : list ChatRequest) (r : ChatRequest),
            ∃ calls, (alog ++ [r])%list = (alog ++ calls)%list
                     ∧ (length calls ≤ 1)%nat) as Hone.
  { intros alog r. exists [r]. split; [done | simpl; lia]. }
  assert (∃ calls, log = (log ++ calls)%list ∧ (length calls ≤ 1)%nat)
    as Hnone.
  { exists []. rewrite app_nil_r. split; [done | simpl; lia]. }
  unfold POST. destruct formData as [[file ocrText]|e]; [|exact Hnone].
  destruct ocrText as [[text|f]|]; [destruct (blank text) eqn:Hb| |].
  - rewrite (POST_ocrText_skipped _ _ _ Hb). apply image_log.
  - destruct (POST_ocrText_taken text apiKey log Hb)
      as (r & l & -> & _ & [->| ->]); [exact Hnone | apply Hone].
  - exact Hnone.
  - apply image_log.
Qed.

(** X18.  The failures of the gateway never surface as an error status:
    when the form is read, the entry `ocrText` is a text or is missing,
    and [fileToBase64] resolves for the entry `image`, if the handler
    encodes one, the handler answers with status 200 or 400. *)
Theorem upstream_failures_do_not_surface
    (file : option FormDataEntryValue) (ocrText : option FormDataEntryValue)
    (apiKey : option string) (log : list ChatRequest) :
  (∀ upload, ocrText ≠ Some (FileEntry upload)) →
  (∀ image, file = Some image → entryTruthy image = true →
     ∃ base64, fileToBase64 image = Normal base64) →
  status (POST create JSON_parse fileToBase64
            (Normal (file, ocrText)) apiKey log).1 ∈ [200%Z; 400%Z].
Proof.
  intros Htext H64. unfold POST.
  destruct (POST_ocrText create JSON_parse ocrText apiKey log)
    as [[[r|]|e] l] eqn:Hocr; [left| |].
  - destruct file as [image|]; [|right; left].
    destruct (entryTruthy image) eqn:Himage; [|right; left].
    destruct (H64 image eq_refl Himage) as [base64 Hb].
    unfold imageStrategy. rewrite Hb.
    destruct (keyMissing apiKey) eqn:Hkey; [right; left|].
    unfold parseProductImage. rewrite Hkey.
    destruct (guarded_returns JSON_parse
                (create (default "" apiKey)
                   (imageRequest base64 (mimeTypeOf image))))
      as (record & props & -> & _).
    destruct (hasData record); [left | right; left].
  - exfalso.
    destruct (ocr_branch_taken_cases ocrText apiKey log) as [(f & ->)|Hn].
    + by apply (Htext f).
    + rewrite Hocr in Hn. by destruct Hn as [? ?].
Qed.

(** The [catch] block of the image branch answers as the [catch] block
    of the handler would. *)
Lemma imageCatch_handlerCatch (e : JsError) (response : HttpResponse) :
  imageCatch e = Normal response → response = handlerCatch e.
Proof.
  unfold imageCatch, handlerCatch.
  destruct (authFailed e); [by intros [= <-]|].
  destruct (quotaExceeded e); [by intros [= <-]|]. discriminate.
Qed.

Lemma imageCatch_Throw (e e' : JsError) :
  imageCatch e = Throw e' → e' = e.
Proof.
  unfold imageCatch. destruct (authFailed e); [discriminate|].
  destruct (quotaExceeded e); [discriminate|]. by intros [= <-].
Qed.

Lemma handlerCatch_status (e : JsError) :
  status (handlerCatch e) ∈ [401%Z; 429%Z; 500%Z].
Proof.
  unfold handlerCatch. destruct (authFailed e); [left|].
  destruct (quotaExceeded e); [right; left | right; right; left].
Qed.

(** X19.  An image alone, with a key: when [fileToBase64] rejects, the
    answer is the one that the [catch] block of the handler gives for
    the error, be it through the [catch] block of the image branch or
    through its [throw]; no request is sent. *)
Theorem encoding_failure_is_classified
    (image : FormDataEntryValue) (ocrText : option FormDataEntryValue)
    (apiKey : option string) (log : list ChatRequest) (e : JsError) :
  keyMissing apiKey = false →
  (POST_ocrText create JSON_parse ocrText apiKey log).1 = Normal None →
  entryTruthy image = true →
  fileToBase64 image = Throw e →
  POST create JSON_parse fileToBase64 (Normal (Some image, ocrText)) apiKey log
    = (handlerCatch e, log).
Proof.
  intros Hkey Hskip Himage H64. unfold POST.
  assert (POST_ocrText create JSON_parse ocrText apiKey log
          = (Normal None, log)) as ->.
  { apply ocr_branch_skipped_log. exact Hskip. }
  rewrite Himage. unfold imageStrategy. rewrite Hkey, H64.
  destruct (imageCatch e) as [response|e'] eqn:Hcatch; simpl.
  - by rewrite (imageCatch_handlerCatch _ _ Hcatch).
  - by rewrite (imageCatch_Throw _ _ Hcatch).
Qed.

(** X20.  The handler answers every request, and with one of the
    statuses 200, 400, 401, 429 and 500. *)
Theorem handler_status_range
    (formData : completion (option FormDataEntryValue
                            * option FormDataEntryValue))
    (apiKey : option string) (log : list ChatRequest) :
  status (POST create JSON_parse fileToBase64 formData apiKey log).1
    ∈ [200%Z; 400%Z; 401%Z; 429%Z; 500%Z].
Proof.
  assert (∀ e, status (handlerCatch e) ∈ [200%Z; 400%Z; 401%Z; 429%Z; 500%Z])
    as Hcatch.
  { intros e. do 2 right. apply handlerCatch_status. }
  unfold POST. destruct formData as [[file ocrText]|e]; [|apply Hcatch].
  destruct (POST_ocrText create JSON_parse ocrText apiKey log)
    as [[[r|]|e] l]; [left| |apply Hcatch].
  destruct file as [image|]; [|right; left].
  destruct (entryTruthy image); [|right; left].
  unfold imageStrategy.
  destruct (keyMissing apiKey) eqn:Hkey; [right; left|].
  destruct (fileToBase64 image) as [base64|e].
  - unfold parseProductImage. rewrite Hkey.
    destruct (guarded_returns JSON_parse
                (create (default "" apiKey)
                   (imageRequest base64 (mimeTypeOf image))))
      as (record & props & -> & _).
    destruct (hasData record); [left | right; left].
  - destruct (imageCatch e) as [response|e'] eqn:He; simpl.
    + rewrite (imageCatch_handlerCatch _ _ He). apply Hcatch.
    + apply Hcatch.
Qed.

(** X21.  A [File] under `ocrText` makes the handler answer with status
    500, whatever the entry `image` and the key are: the call of [trim]
    of line 27 throws, and the error has neither a status nor a code.
    No request is sent. *)
Theorem file_as_text_answers_500
    (file : option FormDataEntryValue) (upload : File)
    (apiKey : option string) (log : list ChatRequest) :
  ∃ error,
    POST create JSON_parse fileToBase64
      (Normal (file, Some (FileEntry upload))) apiKey log
    = ({| status := 500; body := ErrorBody error None false |}, log).
Proof. eexists. reflexivity. Qed.

End MoreEndpoint.

Lemma POST_ocrText_with_key_witness :
  ∃ record,
    parseProductText (gatewayFails 429) rejects "TEA 50g" (Some "sk-test") []
      = (Normal record, [textRequest "TEA 50g"])
    ∧ POST_ocrText (gatewayFails 429) rejects (Some (TextEntry "TEA 50g"))
        (Some "sk-test") []
      = (Normal (Some {| success := true; data := record;
                         message := None; code := None |}),
         [textRequest "TEA 50g"]).
Proof.
  apply (POST_ocrText_with_key (gatewayFails 429) rejects "TEA 50g"
           (Some "sk-test") []);
    [discriminate | vm_compute; lia | reflexivity].
Defined.

Lemma text_takes_precedence_witness :
  POST (gatewayFails 429) rejects (encodes "UE5H")
    (Normal (Some (FileEntry labelPhoto), Some (TextEntry "TEA 50g")))
    (Some "sk-test") []
  = POST (gatewayFails 429) rejects (encodes "UE5H")
      (Normal (None, Some (TextEntry "TEA 50g"))) (Some "sk-test") []
  ∧ status (POST (gatewayFails 429) rejects (encodes "UE5H")
              (Normal (Some (FileEntry labelPhoto), Some (TextEntry "TEA 50g")))
              (Some "sk-test") []).1 = 200%Z.
Proof.
  apply (text_takes_precedence (gatewayFails 429) rejects (encodes "UE5H")
           "TEA 50g" (Some (FileEntry labelPhoto)) None (Some "sk-test") []).
  reflexivity.
Defined.

Lemma image_failure_answers_nothing_provided_witness :
  (POST (gatewayFails 429) rejects (encodes "UE5H")
     (Normal (Some (FileEntry labelPhoto), None)) (Some "sk-test") []).1
  = {| status := 400;
       body := ErrorBody "No image file or OCR text provided" None false |}.
Proof.
  apply (image_failure_answers_nothing_provided
           (gatewayFails 429) rejects (encodes "UE5H")
           (FileEntry labelPhoto) None "UE5H" (Some "sk-test") []
           (mkError "Request failed" (Some 429%Z) None));
    reflexivity.
Defined.

Lemma no_key_no_request_witness :
  (POST (gatewayReplies (VStr "{}")) (yields (JObj ∅)) (encodes "UE5H")
     (Normal (Some (FileEntry labelPhoto), Some (TextEntry "TEA 50g")))
     None []).2 = [].
Proof.
  apply (no_key_no_request (gatewayReplies (VStr "{}")) (yields (JObj ∅))
           (encodes "UE5H")
           (Normal (Some (FileEntry labelPhoto), Some (TextEntry "TEA 50g")))
           None []).
  reflexivity.
Defined.

Lemma upstream_failures_do_not_surface_witness :
  status (POST (gatewayFails 500) rejects (encodes "UE5H")
            (Normal (Some (FileEntry labelPhoto), None))
            (Some "sk-test") []).1
  ∈ [200%Z; 400%Z].
Proof.
  apply (upstream_failures_do_not_surface (gatewayFails 500) rejects
           (encodes "UE5H") (Some (FileEntry labelPhoto)) None
           (Some "sk-test") []).
  - intros upload. discriminate.
  - intros image _ _. exists "UE5H". reflexivity.
Defined.

Lemma encoding_failure_is_classified_witness :
  POST (gatewayReplies (VStr "{}")) (yields (JObj ∅))
    (λ _, Throw (mkError "" None (Some "RESOURCE_EXHAUSTED")))
    (Normal (Some (FileEntry labelPhoto), Some (TextEntry "  ")))
    (Some "sk-test") []
  = ({| status := 429;
        body := ErrorBody "Gemini API quota exceeded. Please check your billing or try again later."
                  (Some "quota_exceeded") false |},
     []).
Proof.
  apply (encoding_failure_is_classified
           (gatewayReplies (VStr "{}")) (yields (JObj ∅))
           (λ _, Throw (mkError "" None (Some "RESOURCE_EXHAUSTED")))
           (FileEntry labelPhoto) (Some (TextEntry "  ")) (Some "sk-test") []
           (mkError "" None (Some "RESOURCE_EXHAUSTED")));
    reflexivity.
Defined.

Lemma parse_failure_skips_fallback_witness :
  ∃ response,
    (POST_ocrText (gatewayFails 429) rejects (Some (TextEntry "TEA 50g"))
       (Some "sk-test") []).1 = Normal (Some response)
    ∧ data response = emptyProduct
    ∧ Get (data response) "rawText" = Normal VUndef
    ∧ message response = None
    ∧ code response = None
    ∧ response
      ≠ textFallback "TEA 50g" (mkError "Request failed" (Some 429%Z) None).
Proof.
  apply (parse_failure_skips_fallback (gatewayFails 429) rejects "TEA 50g"
           (Some "sk-test") []
           (mkError "Request failed" (Some 429%Z) None));
    [discriminate | vm_compute; lia | reflexivity | reflexivity].
Defined.
